(** * The ledger of bank.py: transfers, charges and recurring payments

    A shallow embedding of the request handlers of [src/bank.py] and the
    properties of its ledger.

    - The four tables are lists of rows in insertion order (the order in which
      [.first()] and [.all()] see them); rows are identified by their primary
      key, as the ORM's identity map does.
    - [balance] and [amount] are [Float] columns holding Python floats: they
      are binary64 values here (Rocq's primitive floats), with the rounding of
      [+] and [-], and with NaN and the infinities.
    - A [datetime] is a number of microseconds; the range limit of Python's
      [datetime] (year 9999) is not modelled.
    - A handler takes the session's [user_id], the JSON body and the database,
      and returns its response with the database as its session holds it when
      it returns.  [commit] is the check of the NOT NULL columns when the
      session is committed, and [handle] is a request as the server answers
      it: the handler, then the commit. *)

From Stdlib Require Import ZArith List String Bool Lia Floats.
Import ListNotations.

(* Decimal literals stand for the nearest binary64 value, as in Python. *)
#[local] Set Warnings "-inexact-float".

Local Open Scope string_scope.
Local Open Scope list_scope.
Local Open Scope Z_scope.

(** ** Models *)

Definition datetime := Z.

Module User.
Record t := mk {
  id : Z;
  username : string;
  pin : string;
  created_at : datetime
}.
End User.

Module Account.
Record t := mk {
  id : Z;
  account_number : string;
  account_type : string;
  balance : float;
  user_id : Z;
  created_at : datetime
}.

Definition with_balance (a : t) (b : float) : t :=
  mk (id a) (account_number a) (account_type a) b (user_id a) (created_at a).
End Account.

Module Transaction.
Record t := mk {
  id : Z;
  from_account_id : Z;
  to_account_id : Z;
  amount : float;
  description : string;
  transaction_type : string;
  created_at : datetime
}.
End Transaction.

Module RecurringPayment.
Record t := mk {
  id : Z;
  from_account_id : Z;
  to_account_id : Z;
  amount : float;
  description : string;
  frequency : string;
  is_active : bool;
  next_payment_date : datetime;
  created_at : datetime
}.

Definition with_is_active (p : t) (b : bool) : t :=
  mk (id p) (from_account_id p) (to_account_id p) (amount p) (description p)
     (frequency p) b (next_payment_date p) (created_at p).

Definition with_next_payment_date (p : t) (d : datetime) : t :=
  mk (id p) (from_account_id p) (to_account_id p) (amount p) (description p)
     (frequency p) (is_active p) d (created_at p).
End RecurringPayment.

(** ** The database *)

Record Db := mkDb {
  users : list User.t;
  accounts : list Account.t;
  transactions : list Transaction.t;
  recurring_payments : list RecurringPayment.t
}.

Definition empty_db : Db := mkDb [] [] [] [].

Definition with_accounts (db : Db) (l : list Account.t) : Db :=
  mkDb (users db) l (transactions db) (recurring_payments db).

Definition with_recurring_payments (db : Db) (l : list RecurringPayment.t) : Db :=
  mkDb (users db) (accounts db) (transactions db) l.

(** An autoincremented integer primary key: one more than the largest in use. *)
Definition next_id (ids : list Z) : Z := 1 + fold_right Z.max 0 ids.

(** [Account.query.filter_by(id=...)], [RecurringPayment.query.get(...)] and the
    relationships [payment.from_account], [payment.to_account]. *)
Definition account_by_id (l : list Account.t) (i : Z) : option Account.t :=
  find (fun a => Account.id a =? i) l.

Definition payment_by_id (l : list RecurringPayment.t) (i : Z)
  : option RecurringPayment.t :=
  find (fun p => RecurringPayment.id p =? i) l.

(** [Account.query.filter_by(account_number=..., user_id=...).first()] *)
Definition account_of_user (l : list Account.t) (number : string) (uid : Z)
  : option Account.t :=
  find (fun a => String.eqb (Account.account_number a) number
                 && (Account.user_id a =? uid)) l.

(** [Account.query.filter_by(account_number=...).first()] *)
Definition account_by_number (l : list Account.t) (number : string)
  : option Account.t :=
  find (fun a => String.eqb (Account.account_number a) number) l.

(** [Account.query.filter_by(account_number=..., user_id=...,
    account_type="business").first()] *)
Definition business_account_of_user (l : list Account.t) (number : string)
  (uid : Z) : option Account.t :=
  find (fun a => String.eqb (Account.account_number a) number
                 && (Account.user_id a =? uid)
                 && String.eqb (Account.account_type a) "business") l.

(** [Account.query.filter_by(id=..., user_id=..., account_type="business")
    .first()] *)
Definition business_account_by_id (l : list Account.t) (i uid : Z)
  : option Account.t :=
  find (fun a => (Account.id a =? i) && (Account.user_id a =? uid)
                 && String.eqb (Account.account_type a) "business") l.

(** [Account.query.filter_by(user_id=...).first()] *)
Definition first_account_of (l : list Account.t) (uid : Z) : option Account.t :=
  find (fun a => Account.user_id a =? uid) l.

(** [User.query.filter_by(username=..., pin=...).first()] *)
Definition user_by_credentials (l : list User.t) (username pin : string)
  : option User.t :=
  find (fun u => String.eqb (User.username u) username
                 && String.eqb (User.pin u) pin) l.

(** [User.query.filter_by(username=...).first()] *)
Definition user_by_name (l : list User.t) (username : string) : option User.t :=
  find (fun u => String.eqb (User.username u) username) l.

(** [obj.balance -= amount] and [obj.balance += amount] on the account object
    with primary key [i]: the row is read and written in its current state, so
    two names of one object see each other's writes. *)
Definition balance_sub (i : Z) (amount : float) (l : list Account.t)
  : list Account.t :=
  map (fun a => if Account.id a =? i
                then Account.with_balance a (Account.balance a - amount)%float
                else a) l.

Definition balance_add (i : Z) (amount : float) (l : list Account.t)
  : list Account.t :=
  map (fun a => if Account.id a =? i
                then Account.with_balance a (Account.balance a + amount)%float
                else a) l.

(** ** Requests and responses *)

(** The value of a JSON field that the handlers pass to [float()]. *)
Inductive json_value :=
| JNull                  (* absent, null, false, the empty string, [] or {} *)
| JNumber (x : float)    (* a number (or true): float(x) is x *)
| JNumeric (x : float)   (* a non-empty string that float() parses to x *)
| JText                  (* a non-empty string on which float() raises ValueError *)
| JOther.                (* a non-empty list or object: float() raises TypeError *)

(** Python's truth value: [not v] is [negb (truthy v)]. *)
Definition truthy (v : json_value) : bool :=
  match v with
  | JNull => false
  | JNumber x => negb (x =? 0)%float
  | JNumeric _ | JText | JOther => true
  end.

Definition truthy_str (s : string) : bool := negb (String.eqb s "").

Inductive float_result :=
| FloatOk (x : float)
| ValueError
| TypeError.

(** [float(v)] *)
Definition python_float (v : json_value) : float_result :=
  match v with
  | JNumber x | JNumeric x => FloatOk x
  | JText => ValueError
  | JNull | JOther => TypeError
  end.

Inductive response :=
| Error (status : Z) (error : string)
| ServerError                        (* an exception no handler catches: 500 *)
| RegisterOk (user : User.t) (account : Account.t)
| TransferOk (transaction : Transaction.t) (new_balance : float)
| ChargeOk (transaction : Transaction.t) (business_new_balance : float)
| RecurringCreated (recurring_payment : RecurringPayment.t)
| RecurringCancelled
| RecurringProcessed (processed failed : nat).

(** [timedelta(weeks=w, days=d)] in microseconds. *)
Definition timedelta (weeks days : Z) : Z := (7 * weeks + days) * 86400000000.

(** ** register *)

Record register_data := {
  reg_username : string;
  reg_pin : string;
  reg_account_type : string      (* data.get("account_type", "personal") *)
}.

Definition is_digit (c : Ascii.ascii) : bool :=
  let n := Ascii.nat_of_ascii c in (48 <=? n)%nat && (n <=? 57)%nat.

Fixpoint isdigit_chars (s : string) : bool :=
  match s with
  | EmptyString => true
  | String c s' => is_digit c && isdigit_chars s'
  end.

(** [pin.isdigit()] *)
Definition isdigit (s : string) : bool := truthy_str s && isdigit_chars s.

(** [generated] is the account number that [generate_account_number] draws. *)
Definition register (now : datetime) (generated : string) (data : register_data)
  (db : Db) : response * Db :=
  let username := reg_username data in
  let pin := reg_pin data in
  if negb (truthy_str username) || negb (truthy_str pin) then
    (Error 400 "Username and PIN are required", db)
  else if negb (Nat.eqb (String.length pin) 4) || negb (isdigit pin) then
    (Error 400 "PIN must be exactly 4 digits", db)
  else
    match user_by_name (users db) username with
    | Some _ => (Error 400 "Username already exists", db)
    | None =>
      let user := User.mk (next_id (map User.id (users db))) username pin now in
      (* the unique constraint on account_number: IntegrityError, rolled back *)
      match account_by_number (accounts db) generated with
      | Some _ => (ServerError, db)
      | None =>
        let account :=
          Account.mk (next_id (map Account.id (accounts db))) generated
                     (reg_account_type data) 250000%float (User.id user) now in
        (RegisterOk user account,
         mkDb (users db ++ [user]) (accounts db ++ [account])
              (transactions db) (recurring_payments db))
      end
    end.

(** ** transfer_money *)

Record transfer_data := {
  from_account_number : string;
  to_account_number : string;
  transfer_amount : json_value;
  transfer_description : string
}.

Definition transfer_money (now : datetime) (session : option Z)
  (data : transfer_data) (db : Db) : response * Db :=
  match session with
  | None => (Error 401 "Not logged in", db)
  | Some session_user_id =>
    if negb (truthy_str (from_account_number data))
       || negb (truthy_str (to_account_number data))
       || negb (truthy (transfer_amount data)) then
      (Error 400 "From account, to account, and amount are required", db)
    else
      match python_float (transfer_amount data) with
      | ValueError => (Error 400 "Invalid amount", db)
      | TypeError => (ServerError, db)
      | FloatOk amount =>
        if (amount <=? 0)%float then (Error 400 "Amount must be positive", db)
        else
          let from_account :=
            account_of_user (accounts db) (from_account_number data)
                            session_user_id in
          let to_account :=
            account_by_number (accounts db) (to_account_number data) in
          match from_account, to_account with
          | None, _ =>
            (Error 404 "Source account not found or not owned by you", db)
          | Some _, None => (Error 404 "Destination account not found", db)
          | Some from_account, Some to_account =>
            if (Account.balance from_account <? amount)%float then
              (Error 400 "Insufficient funds", db)
            else
              let from_id := Account.id from_account in
              let to_id := Account.id to_account in
              let accounts' :=
                balance_add to_id amount
                  (balance_sub from_id amount (accounts db)) in
              let transaction :=
                Transaction.mk (next_id (map Transaction.id (transactions db)))
                  from_id to_id amount (transfer_description data)
                  "transfer" now in
              let debited := (Account.balance from_account - amount)%float in
              (* from_account and to_account are one object when the row is
                 the same *)
              let new_balance :=
                if from_id =? to_id then (debited + amount)%float else debited in
              (TransferOk transaction new_balance,
               mkDb (users db) accounts' (transactions db ++ [transaction])
                    (recurring_payments db))
          end
      end
  end.

(** ** charge_customer *)

Record charge_data := {
  charge_business_account_number : string;
  customer_username : string;
  customer_pin : string;
  charge_amount : json_value;
  reason : string;
  charge_description : string
}.

Definition charge_customer (now : datetime) (session : option Z)
  (data : charge_data) (db : Db) : response * Db :=
  match session with
  | None => (Error 401 "Not logged in", db)
  | Some session_user_id =>
    if negb (truthy_str (charge_business_account_number data)
             && truthy_str (customer_username data)
             && truthy_str (customer_pin data)
             && truthy (charge_amount data)
             && truthy_str (reason data)) then
      (Error 400 "All fields including reason are required", db)
    else
      match python_float (charge_amount data) with
      | ValueError => (Error 400 "Invalid amount", db)
      | TypeError => (ServerError, db)
      | FloatOk amount =>
        if (amount <=? 0)%float then (Error 400 "Amount must be positive", db)
        else
          match business_account_of_user (accounts db)
                  (charge_business_account_number data) session_user_id with
          | None =>
            (Error 404 "Business account not found or not owned by you", db)
          | Some business_account =>
            match user_by_credentials (users db) (customer_username data)
                                      (customer_pin data) with
            | None => (Error 401 "Invalid customer credentials", db)
            | Some customer =>
              match first_account_of (accounts db) (User.id customer) with
              | None => (Error 404 "Customer account not found", db)
              | Some customer_account =>
                if (Account.balance customer_account <? amount)%float then
                  (Error 400 "Customer has insufficient funds", db)
                else
                  let customer_id := Account.id customer_account in
                  let business_id := Account.id business_account in
                  let accounts' :=
                    balance_add business_id amount
                      (balance_sub customer_id amount (accounts db)) in
                  let full_description :=
                    ("INVOICE: " ++ reason data
                     ++ (if truthy_str (charge_description data)
                         then " - " ++ charge_description data else ""))%string in
                  let transaction :=
                    Transaction.mk (next_id (map Transaction.id (transactions db)))
                      customer_id business_id amount full_description
                      "charge" now in
                  let business_new_balance :=
                    if customer_id =? business_id
                    then (Account.balance customer_account - amount + amount)%float
                    else (Account.balance business_account + amount)%float in
                  (ChargeOk transaction business_new_balance,
                   mkDb (users db) accounts' (transactions db ++ [transaction])
                        (recurring_payments db))
              end
            end
          end
      end
  end.

(** ** create_recurring_payment *)

Record recurring_data := {
  business_account_number : string;
  recipient_account_number : string;
  recurring_amount : json_value;
  recurring_description : option string;   (* default "Salary Payment" *)
  recurring_frequency : option string      (* default "monthly" *)
}.

Definition create_recurring_payment (now : datetime) (session : option Z)
  (data : recurring_data) (db : Db) : response * Db :=
  match session with
  | None => (Error 401 "Not logged in", db)
  | Some session_user_id =>
    let description :=
      match recurring_description data with Some d => d | None => "Salary Payment" end in
    let frequency :=
      match recurring_frequency data with Some f => f | None => "monthly" end in
    if negb (truthy_str (business_account_number data)
             && truthy_str (recipient_account_number data)
             && truthy (recurring_amount data)) then
      (Error 400 "Business account, recipient account, and amount are required", db)
    else
      match python_float (recurring_amount data) with
      | ValueError => (Error 400 "Invalid amount", db)
      | TypeError => (ServerError, db)
      | FloatOk amount =>
        if (amount <=? 0)%float then (Error 400 "Amount must be positive", db)
        else if negb (String.eqb frequency "weekly" || String.eqb frequency "monthly"
                      || String.eqb frequency "yearly") then
          (Error 400 "Frequency must be weekly, monthly, or yearly", db)
        else
          match business_account_of_user (accounts db)
                  (business_account_number data) session_user_id with
          | None =>
            (Error 404 "Business account not found or not owned by you", db)
          | Some business_account =>
            match account_by_number (accounts db)
                                    (recipient_account_number data) with
            | None => (Error 404 "Recipient account not found", db)
            | Some recipient_account =>
              let next_payment :=
                if String.eqb frequency "weekly" then now + timedelta 1 0
                else if String.eqb frequency "monthly" then now + timedelta 0 30
                else if String.eqb frequency "yearly" then now + timedelta 0 365
                else now in
              let recurring_payment :=
                RecurringPayment.mk
                  (next_id (map RecurringPayment.id (recurring_payments db)))
                  (Account.id business_account) (Account.id recipient_account)
                  amount description frequency true next_payment now in
              (RecurringCreated recurring_payment,
               with_recurring_payments db
                 (recurring_payments db ++ [recurring_payment]))
            end
          end
      end
  end.

(** ** cancel_recurring_payment *)

Definition set_inactive (i : Z) (l : list RecurringPayment.t)
  : list RecurringPayment.t :=
  map (fun p => if RecurringPayment.id p =? i
                then RecurringPayment.with_is_active p false else p) l.

Definition cancel_recurring_payment (session : option Z) (payment_id : Z)
  (db : Db) : response * Db :=
  match session with
  | None => (Error 401 "Not logged in", db)
  | Some session_user_id =>
    match payment_by_id (recurring_payments db) payment_id with
    | None => (Error 404 "Recurring payment not found", db)
    | Some recurring_payment =>
      match business_account_by_id (accounts db)
              (RecurringPayment.from_account_id recurring_payment)
              session_user_id with
      | None => (Error 403 "Unauthorized to cancel this payment", db)
      | Some _ =>
        (RecurringCancelled,
         with_recurring_payments db
           (set_inactive (RecurringPayment.id recurring_payment)
                         (recurring_payments db)))
      end
    end
  end.

(** ** process_recurring_payments *)

(** The filter of the query: active and due. *)
Definition is_due (current_time : datetime) (p : RecurringPayment.t) : bool :=
  RecurringPayment.is_active p
  && (RecurringPayment.next_payment_date p <=? current_time).

Definition due_payments (current_time : datetime) (db : Db)
  : list RecurringPayment.t :=
  filter (is_due current_time) (recurring_payments db).

(** The offset that the [if]/[elif] chain on [payment.frequency] adds; a
    frequency that is none of the three leaves the date as it is. *)
Definition frequency_delta (frequency : string) : Z :=
  if String.eqb frequency "weekly" then timedelta 1 0
  else if String.eqb frequency "monthly" then timedelta 0 30
  else if String.eqb frequency "yearly" then timedelta 0 365
  else 0.

(** [payment.next_payment_date += delta] on the payment with primary key [i]. *)
Definition advance_next_payment_date (i : Z) (delta : Z)
  (l : list RecurringPayment.t) : list RecurringPayment.t :=
  map (fun p => if RecurringPayment.id p =? i
                then RecurringPayment.with_next_payment_date p
                       (RecurringPayment.next_payment_date p + delta)
                else p) l.

(** The state of the loop: the session's view of the database and the two
    counters. *)
Definition loop_state := (Db * nat * nat)%type.

(** One iteration of [for payment in due_payments], with its [try]/[except]:
    a relationship that finds no row is [None], the attribute access on it
    raises, and the handler counts a failure and goes on, keeping what the
    iteration had written before. *)
Definition process_payment (now : datetime) (st : loop_state)
  (payment : RecurringPayment.t) : loop_state :=
  let '(db, processed_count, failed_count) := st in
  let amount := RecurringPayment.amount payment in
  let from_id := RecurringPayment.from_account_id payment in
  let to_id := RecurringPayment.to_account_id payment in
  match account_by_id (accounts db) from_id with
  | None => (db, processed_count, S failed_count)
  | Some from_account =>
    if (amount <=? Account.balance from_account)%float then
      let accounts1 := balance_sub from_id amount (accounts db) in
      match account_by_id accounts1 to_id with
      | None => (with_accounts db accounts1, processed_count, S failed_count)
      | Some _ =>
        let accounts2 := balance_add to_id amount accounts1 in
        let transaction :=
          Transaction.mk (next_id (map Transaction.id (transactions db)))
            from_id to_id amount
            ("SALARY: " ++ RecurringPayment.description payment)%string
            "salary" now in
        (mkDb (users db) accounts2 (transactions db ++ [transaction])
              (advance_next_payment_date (RecurringPayment.id payment)
                 (frequency_delta (RecurringPayment.frequency payment))
                 (recurring_payments db)),
         S processed_count, failed_count)
      end
    else (db, processed_count, S failed_count)
  end.

Definition process_recurring_payments (current_time : datetime) (db : Db)
  : response * Db :=
  let '(db', processed_count, failed_count) :=
    fold_left (process_payment current_time) (due_payments current_time db)
              (db, 0%nat, 0%nat) in
  (RecurringProcessed processed_count failed_count, db').

(** ** db.session.commit() *)

(** [balance] and the two [amount] columns are [Float] columns that are NOT
    NULL ([Mapped[float]] without [Optional]), and SQLite stores a NaN as
    NULL. *)
Definition not_null (x : float) : bool := negb (is_nan x).

Definition constraints_hold (db : Db) : bool :=
  forallb (fun a => not_null (Account.balance a)) (accounts db)
  && forallb (fun t => not_null (Transaction.amount t)) (transactions db)
  && forallb (fun p => not_null (RecurringPayment.amount p))
             (recurring_payments db).

(** [db.session.commit()] on what a handler has written, [stored] being the
    database before the request.  A NaN in a NOT NULL column raises
    IntegrityError; no handler catches an exception of its commit, so the
    request answers 500 and the session is rolled back.  (The check is on every
    row: the rows that the request did not write were stored under it.) *)
Definition commit (stored : Db) (result : response * Db) : response * Db :=
  if constraints_hold (snd result) then result else (ServerError, stored).

(** ** The API as a transition system *)

(** One request to the blueprint.  A session holds whatever [user_id] a login
    stored in it; the requests that only read ([login], [logout], the [GET]
    routes, [search_account]) leave the database as it is and are left out. *)
Inductive call :=
| Register (generated : string) (data : register_data)
| Transfer (session : option Z) (data : transfer_data)
| Charge (session : option Z) (data : charge_data)
| CreateRecurring (session : option Z) (data : recurring_data)
| CancelRecurring (session : option Z) (payment_id : Z)
| ProcessRecurring.

(** The handler of the route. *)
Definition route (now : datetime) (c : call) (db : Db) : response * Db :=
  match c with
  | Register generated data => register now generated data db
  | Transfer session data => transfer_money now session data db
  | Charge session data => charge_customer now session data db
  | CreateRecurring session data => create_recurring_payment now session data db
  | CancelRecurring session payment_id =>
    cancel_recurring_payment session payment_id db
  | ProcessRecurring => process_recurring_payments now db
  end.

(** A request as the server answers it: the handler, and the commit of its
    session. *)
Definition handle (now : datetime) (c : call) (db : Db) : response * Db :=
  commit db (route now c db).

(** The databases that requests build from the empty one ([db.create_all()]). *)
Inductive reachable : Db -> Prop :=
| reachable_empty : reachable empty_db
| reachable_step db now c :
    reachable db -> reachable (snd (handle now c db)).

(** ** Vocabulary of the properties *)

(** A response that is not an error. *)
Definition is_success (r : response) : bool :=
  match r with
  | Error _ _ | ServerError => false
  | _ => true
  end.

(** No balance is below zero: [balance < 0] is false of every account, as it
    is of a balance that is zero, positive, infinite or NaN. *)
Definition no_negative_balance (l : list Account.t) : bool :=
  forallb (fun a => negb (Account.balance a <? 0)%float) l.

(** Every balance is a number that is zero or more: [0 <= balance], which is
    false of a NaN. *)
Definition non_negative_balances (l : list Account.t) : bool :=
  forallb (fun a => (0 <=? Account.balance a)%float) l.

(** Every stored recurring amount passed the check [amount <= 0] of
    [create_recurring_payment]. *)
Definition amounts_checked (l : list RecurringPayment.t) : bool :=
  forallb (fun p => negb (RecurringPayment.amount p <=? 0)%float) l.

(** The accounts after [amount] has been taken from the account [from_id] and
    then added to the account [to_id]. *)
Definition moved (from_id to_id : Z) (amount : float) (l : list Account.t)
  : list Account.t :=
  balance_add to_id amount (balance_sub from_id amount l).

(** The state of the loop of [process_recurring_payments] after the payments
    [done] of the due list. *)
Definition loop_after (now : datetime) (db : Db) (done : list RecurringPayment.t)
  : loop_state :=
  fold_left (process_payment now) done (db, 0%nat, 0%nat).

(** The branch of [process_payment] that moves the money: both accounts are
    there and the source covers the amount. *)
Definition can_pay (db : Db) (payment : RecurringPayment.t) : bool :=
  match account_by_id (accounts db) (RecurringPayment.from_account_id payment),
        account_by_id (accounts db) (RecurringPayment.to_account_id payment) with
  | Some from_account, Some _ =>
    (RecurringPayment.amount payment <=? Account.balance from_account)%float
  | _, _ => false
  end.

(** [n] days in microseconds. *)
Definition days (n : Z) : Z := n * 86400000000.

(** The payment with its date moved on by the offset of its frequency. *)
Definition advanced (p : RecurringPayment.t) : RecurringPayment.t :=
  RecurringPayment.with_next_payment_date p
    (RecurringPayment.next_payment_date p
     + frequency_delta (RecurringPayment.frequency p)).

(** The database after the iteration that pays [payment]. *)
Definition paid (now : datetime) (db : Db) (payment : RecurringPayment.t) : Db :=
  let amount := RecurringPayment.amount payment in
  let from_id := RecurringPayment.from_account_id payment in
  let to_id := RecurringPayment.to_account_id payment in
  mkDb (users db)
       (balance_add to_id amount (balance_sub from_id amount (accounts db)))
       (transactions db
        ++ [Transaction.mk (next_id (map Transaction.id (transactions db)))
              from_id to_id amount
              ("SALARY: " ++ RecurringPayment.description payment)%string
              "salary" now])
       (advance_next_payment_date (RecurringPayment.id payment)
          (frequency_delta (RecurringPayment.frequency payment))
          (recurring_payments db)).

Definition st_db (st : loop_state) : Db := fst (fst st).
Definition st_processed (st : loop_state) : nat := snd (fst st).
Definition st_failed (st : loop_state) : nat := snd st.

(** The transaction that the loop logs when it pays [payment]: its two
    accounts, its amount and its description, with the type "salary". *)
Definition salary_of (payment : RecurringPayment.t) (t : Transaction.t) : Prop :=
  Transaction.from_account_id t = RecurringPayment.from_account_id payment
  /\ Transaction.to_account_id t = RecurringPayment.to_account_id payment
  /\ Transaction.amount t = RecurringPayment.amount payment
  /\ Transaction.description t
     = ("SALARY: " ++ RecurringPayment.description payment)%string
  /\ Transaction.transaction_type t = "salary".

(** A scenario used by the examples below: alice owns a business account,
    bob and carol personal ones; every account starts with 250000. *)
Definition alice := {| reg_username := "alice"; reg_pin := "1234";
                       reg_account_type := "business" |}.
Definition bob := {| reg_username := "bob"; reg_pin := "4321";
                     reg_account_type := "personal" |}.
Definition carol := {| reg_username := "carol"; reg_pin := "0000";
                       reg_account_type := "personal" |}.

Definition db_alice : Db := snd (register 0 "1000000001" alice empty_db).
Definition db_two : Db := snd (register 5 "1000000002" bob db_alice).
Definition db_three : Db := snd (register 7 "1000000003" carol db_two).

Definition transfer_of (source destination : string) (amount : float)
  : transfer_data :=
  {| from_account_number := source; to_account_number := destination;
     transfer_amount := JNumber amount; transfer_description := "" |}.

Definition charge_of (business customer customer_pin : string) (amount : float)
  : charge_data :=
  {| charge_business_account_number := business; customer_username := customer;
     customer_pin := customer_pin; charge_amount := JNumber amount;
     reason := "invoice 7"; charge_description := "" |}.

(** alice sets up a monthly salary of 1000 for bob at time 100. *)
Definition salary_data : recurring_data :=
  {| business_account_number := "1000000001";
     recipient_account_number := "1000000002";
     recurring_amount := JNumeric 1000;
     recurring_description := None; recurring_frequency := None |}.

Definition db_salary : Db :=
  snd (create_recurring_payment 100 (Some 1) salary_data db_three).

Definition salary : RecurringPayment.t :=
  RecurringPayment.mk 1 1 2 1000 "Salary Payment" "monthly" true
                      (100 + timedelta 0 30) 100.

(** alice then moves 249500 to carol and is left with 500. *)
Definition db_poor : Db :=
  snd (transfer_money 200 (Some 1)
         (transfer_of "1000000001" "1000000003" 249500) db_salary).

(** bob moves 150000 to carol: alice holds 250000, bob 100000, carol 400000. *)
Definition db_uneven : Db :=
  snd (transfer_money 20 (Some 2)
         (transfer_of "1000000002" "1000000003" 150000) db_three).

(** bob moves 0.1 to alice, who then holds 250000.1. *)
Definition db_dime : Db :=
  snd (transfer_money 20 (Some 2)
         (transfer_of "1000000002" "1000000001" 0.1) db_two).

Definition account_alice : Account.t :=
  Account.mk 1 "1000000001" "business" 250000 1 0.
Definition account_bob : Account.t :=
  Account.mk 2 "1000000002" "personal" 250000 2 5.

(** ** generate_account_number *)

Definition digit_char (d : Z) : Ascii.ascii :=
  Ascii.ascii_of_nat (48 + Z.to_nat d).

(** The decimal digits of a natural number, most significant first; [fuel]
    bounds their number. *)
Fixpoint decimal (fuel : nat) (n : Z) : string :=
  match fuel with
  | O => ""
  | S fuel' =>
    if n <? 10 then String (digit_char n) ""
    else (decimal fuel' (n / 10) ++ String (digit_char (n mod 10)) "")%string
  end.

(** [str(n)] for an integer: a number has no more decimal than binary digits. *)
Definition str (n : Z) : string :=
  if n <? 0 then ("-" ++ decimal (S (Z.to_nat (Z.log2 (- n)))) (- n))%string
  else decimal (S (Z.to_nat (Z.log2 n))) n.

(** [drawn] is the value of [random.randint(1000000000, 9999999999)]. *)
Definition generate_account_number (drawn : Z) : string := str drawn.

(** ** The requests that only read *)

(** [RecurringPayment.to_dict()]: the columns and three values read through
    the relationships. *)
Record payment_dict := {
  pd_payment : RecurringPayment.t;
  pd_from_account_number : string;
  pd_to_account_number : string;
  pd_recipient_username : string
}.

Inductive view :=
| ViewError (status : Z) (error : string)
| ViewServerError                    (* an exception no handler catches: 500 *)
| LoginOk (user : User.t) (accounts : list Account.t)
| LoggedOut
| AccountsView (accounts : list Account.t)
| TransactionsView (transactions : list Transaction.t)
| SearchView (account_number account_type owner_username : string)
| RecurringView (payments : list payment_dict).

(** [account.owner] *)
Definition user_by_id (l : list User.t) (i : Z) : option User.t :=
  find (fun u => User.id u =? i) l.

(** [Account.query.filter_by(user_id=...).all()] *)
Definition accounts_of (l : list Account.t) (uid : Z) : list Account.t :=
  filter (fun a => Account.user_id a =? uid) l.

(** [login]: the response and the session after it. *)
Definition login (username pin : string) (session : option Z) (db : Db)
  : view * option Z :=
  if negb (truthy_str username) || negb (truthy_str pin) then
    (ViewError 400 "Username and PIN are required", session)
  else
    match user_by_credentials (users db) username pin with
    | None => (ViewError 401 "Invalid username or PIN", session)
    | Some user =>
      (LoginOk user (accounts_of (accounts db) (User.id user)),
       Some (User.id user))
    end.

(** [logout]: [session.pop("user_id", None)]. *)
Definition logout (session : option Z) : view * option Z := (LoggedOut, None).

Definition get_accounts (session : option Z) (db : Db) : view :=
  match session with
  | None => ViewError 401 "Not logged in"
  | Some session_user_id => AccountsView (accounts_of (accounts db) session_user_id)
  end.

(** [order_by(Transaction.created_at.desc())], as an insertion sort; the
    order among equal dates is the one the database happens to give. *)
Fixpoint insert_desc (t : Transaction.t) (l : list Transaction.t)
  : list Transaction.t :=
  match l with
  | [] => [t]
  | x :: l' =>
    if Transaction.created_at x <? Transaction.created_at t then t :: l
    else x :: insert_desc t l'
  end.

Definition order_by_created_at_desc (l : list Transaction.t)
  : list Transaction.t :=
  fold_right insert_desc [] l.

Definition get_transactions (session : option Z) (account_id : Z) (db : Db)
  : view :=
  match session with
  | None => ViewError 401 "Not logged in"
  | Some session_user_id =>
    match find (fun a => (Account.id a =? account_id)
                         && (Account.user_id a =? session_user_id))
               (accounts db) with
    | None => ViewError 404 "Account not found"
    | Some _ =>
      TransactionsView
        (order_by_created_at_desc
           (filter (fun t => (Transaction.from_account_id t =? account_id)
                             || (Transaction.to_account_id t =? account_id))
                   (transactions db)))
    end
  end.

Definition search_account (session : option Z) (account_number : string)
  (db : Db) : view :=
  match session with
  | None => ViewError 401 "Not logged in"
  | Some _ =>
    if negb (truthy_str account_number) then
      ViewError 400 "Account number is required"
    else
      match account_by_number (accounts db) account_number with
      | None => ViewError 404 "Account not found"
      | Some account =>
        match user_by_id (users db) (Account.user_id account) with
        | None => ViewServerError     (* account.owner is None *)
        | Some owner =>
          SearchView (Account.account_number account)
                     (Account.account_type account) (User.username owner)
        end
      end
  end.

(** [payment.to_dict()]; [None] when a relationship finds no row and the
    attribute access on it raises. *)
Definition payment_to_dict (db : Db) (p : RecurringPayment.t)
  : option payment_dict :=
  match account_by_id (accounts db) (RecurringPayment.from_account_id p),
        account_by_id (accounts db) (RecurringPayment.to_account_id p) with
  | Some from_account, Some to_account =>
    match user_by_id (users db) (Account.user_id to_account) with
    | Some owner =>
      Some {| pd_payment := p;
              pd_from_account_number := Account.account_number from_account;
              pd_to_account_number := Account.account_number to_account;
              pd_recipient_username := User.username owner |}
    | None => None
    end
  | _, _ => None
  end.

(** [[payment.to_dict() for payment in l]] *)
Fixpoint payments_to_dicts (db : Db) (l : list RecurringPayment.t)
  : option (list payment_dict) :=
  match l with
  | [] => Some []
  | p :: l' =>
    match payment_to_dict db p, payments_to_dicts db l' with
    | Some d, Some ds => Some (d :: ds)
    | _, _ => None
    end
  end.

Definition get_recurring_payments (session : option Z) (db : Db) : view :=
  match session with
  | None => ViewError 401 "Not logged in"
  | Some session_user_id =>
    let business_accounts :=
      filter (fun a => (Account.user_id a =? session_user_id)
                       && String.eqb (Account.account_type a) "business")
             (accounts db) in
    match business_accounts with
    | [] => RecurringView []
    | _ =>
      let business_account_ids := map Account.id business_accounts in
      let recurring_payments :=
        filter (fun p => existsb (Z.eqb (RecurringPayment.from_account_id p))
                                 business_account_ids)
               (recurring_payments db) in
      match payments_to_dicts db recurring_payments with
      | Some dicts => RecurringView dicts
      | None => ViewServerError
      end
    end
  end.

(** ** Well-formed databases *)

(** An account without its balance, and a payment without its flag and its
    date: what no handler changes once the row is there. *)
Definition account_key (a : Account.t) : Account.t := Account.with_balance a 0.

Definition payment_terms (p : RecurringPayment.t) : RecurringPayment.t :=
  RecurringPayment.with_next_payment_date
    (RecurringPayment.with_is_active p true) 0.

Definition valid_frequency (frequency : string) : bool :=
  String.eqb frequency "weekly" || String.eqb frequency "monthly"
  || String.eqb frequency "yearly".

(** What [register] accepts as a user. *)
Definition valid_credentials (u : User.t) : bool :=
  truthy_str (User.username u)
  && Nat.eqb (String.length (User.pin u)) 4
  && isdigit (User.pin u).

(** The constraints of the schema (primary keys, unique columns, foreign keys)
    and what the handlers check before they insert a row. *)
Record well_formed (db : Db) : Prop := {
  wf_user_ids : NoDup (map User.id (users db));
  wf_usernames : NoDup (map User.username (users db));
  wf_credentials : forallb valid_credentials (users db) = true;
  wf_account_ids : NoDup (map Account.id (accounts db));
  wf_account_numbers : NoDup (map Account.account_number (accounts db));
  wf_owners :
    incl (map Account.user_id (accounts db)) (map User.id (users db));
  wf_transaction_ids : NoDup (map Transaction.id (transactions db));
  wf_transaction_from :
    incl (map Transaction.from_account_id (transactions db))
         (map Account.id (accounts db));
  wf_transaction_to :
    incl (map Transaction.to_account_id (transactions db))
         (map Account.id (accounts db));
  wf_payment_ids : NoDup (map RecurringPayment.id (recurring_payments db));
  wf_payment_from :
    incl (map (fun p => (RecurringPayment.from_account_id p, "business"))
              (recurring_payments db))
         (map (fun a => (Account.id a, Account.account_type a)) (accounts db));
  wf_payment_to :
    incl (map RecurringPayment.to_account_id (recurring_payments db))
         (map Account.id (accounts db));
  wf_frequencies :
    forallb (fun p => valid_frequency (RecurringPayment.frequency p))
            (recurring_payments db) = true
}.

(** * Facts about binary64

    The comparisons and the signs of sums and differences, from the
    specification of the primitive operations ([SpecFloat]). *)

Section Binary64.

(** Rounding with a positive sign gives a zero, a finite value or an infinity of
    that sign: nothing below zero. *)
Lemma binary_round_aux_not_neg mx ex lx :
  SFltb (binary_round_aux prec emax false mx ex lx) (S754_zero false) = false.
Proof.
  unfold binary_round_aux.
  destruct (shr_fexp prec emax mx ex lx) as [mrs' e'].
  destruct (shr_fexp prec emax _ e' loc_Exact) as [mrs'' e''].
  destruct (shr_m mrs''); try reflexivity.
  destruct (e'' <=? emax - prec); reflexivity.
Qed.

Lemma binary_normalize_not_neg z e :
  0 <= z -> SFltb (binary_normalize prec emax z e false) (S754_zero false) = false.
Proof.
  intros Hz. destruct z as [|p|p]; simpl.
  - reflexivity.
  - unfold binary_round.
    destruct (shl_align p e _) as [mz ez]. apply binary_round_aux_not_neg.
  - lia.
Qed.

(** A mantissa of [d] binary digits lies in [2^(d-1), 2^d). *)
Lemma digits2_pos_bounds m :
  2 ^ (Zpos (digits2_pos m) - 1) <= Zpos m < 2 ^ Zpos (digits2_pos m).
Proof.
  induction m as [m IH|m IH|]; simpl digits2_pos.
  - rewrite Pos2Z.inj_succ.
    replace (Z.succ (Zpos (digits2_pos m)) - 1) with (Z.succ (Zpos (digits2_pos m) - 1)) by lia.
    rewrite !Z.pow_succ_r by lia. lia.
  - rewrite Pos2Z.inj_succ.
    replace (Z.succ (Zpos (digits2_pos m)) - 1) with (Z.succ (Zpos (digits2_pos m) - 1)) by lia.
    rewrite !Z.pow_succ_r by lia. lia.
  - simpl. lia.
Qed.

(** The alignment of two mantissas on the smaller exponent is a shift. *)
Lemma iter_xO_pow m d : Zpos (Pos.iter xO m d) = Zpos m * 2 ^ Zpos d.
Proof.
  induction d as [|d IH] using Pos.peano_ind.
  - simpl. lia.
  - rewrite Pos.iter_succ, Pos2Z.inj_succ, Z.pow_succ_r by lia.
    rewrite Pos2Z.inj_xO, IH. lia.
Qed.

Lemma shl_align_value m e e' :
  e' <= e -> Zpos (fst (shl_align m e e')) = Zpos m * 2 ^ (e - e').
Proof.
  intros H. unfold shl_align.
  destruct (e' - e) as [|d|d] eqn:E.
  - replace (e - e') with 0 by lia. simpl. lia.
  - lia.
  - simpl. rewrite iter_xO_pow. replace (e - e') with (Zpos d) by lia. reflexivity.
Qed.

(** A canonical mantissa has at most [prec] digits, and exactly [prec] above the
    least exponent. *)
Lemma bounded_digits m e :
  bounded prec emax m e = true ->
  SpecFloat.emin prec emax <= e /\ Zpos (digits2_pos m) <= prec
  /\ (SpecFloat.emin prec emax < e -> Zpos (digits2_pos m) = prec).
Proof.
  unfold bounded, canonical_mantissa, fexp. intros H.
  apply andb_prop in H. destruct H as [H _]. apply Z.eqb_eq in H.
  lia.
Qed.

(** For two positive finite values in canonical form, [x < y] false makes the
    aligned mantissa of [x] at least that of [y]. *)
Lemma finite_sub_not_neg mx ex my ey :
  bounded prec emax mx ex = true -> bounded prec emax my ey = true ->
  SFltb (S754_finite false mx ex) (S754_finite false my ey) = false ->
  0 <= Zpos (fst (shl_align mx ex (Z.min ex ey)))
       - Zpos (fst (shl_align my ey (Z.min ex ey))).
Proof.
  intros Bx By H.
  rewrite !shl_align_value by lia.
  unfold SFltb in H. simpl in H.
  destruct (Z.compare_spec ex ey) as [E|E|E].
  - subst ey. rewrite Z.min_id, Z.sub_diag, Z.pow_0_r.
    change (Pos.compare_cont Eq mx my) with (Pos.compare mx my) in H.
    destruct (Pos.compare_spec mx my); try discriminate; lia.
  - discriminate.
  - rewrite Z.min_r by lia. rewrite Z.sub_diag, Z.pow_0_r.
    destruct (bounded_digits _ _ Bx) as (Hx0 & Hx1 & Hx2).
    destruct (bounded_digits _ _ By) as (Hy0 & Hy1 & Hy2).
    specialize (Hx2 ltac:(lia)).
    pose proof (digits2_pos_bounds mx) as Dx.
    pose proof (digits2_pos_bounds my) as Dy.
    rewrite Hx2 in Dx.
    assert (2 ^ Zpos (digits2_pos my) <= 2 ^ prec) by (apply Z.pow_le_mono_r; lia).
    assert (2 ^ 1 <= 2 ^ (ex - ey)) by (apply Z.pow_le_mono_r; lia).
    assert (2 ^ prec = 2 ^ (prec - 1) * 2 ^ 1) by (rewrite <- Z.pow_add_r by (unfold prec; lia); f_equal; lia).
    nia.
Qed.
(** Swapping the operands of a comparison swaps its result. *)
Lemma SFcompare_antisym x y :
  SFcompare y x = option_map CompOpp (SFcompare x y).
Proof.
  destruct x as [sx|sx| |sx mx ex], y as [sy|sy| |sy my ey]; simpl;
    try reflexivity;
    try (destruct sx; reflexivity); try (destruct sy; reflexivity);
    try (destruct sx, sy; reflexivity).
  destruct sx, sy; simpl; try reflexivity.
  - rewrite (Z.compare_antisym ex ey).
    destruct (ex ?= ey); simpl; try reflexivity.
    change (Pos.compare_cont Eq my mx) with (Pos.compare my mx).
    change (Pos.compare_cont Eq mx my) with (Pos.compare mx my).
    rewrite (Pos.compare_antisym mx my). reflexivity.
  - rewrite (Z.compare_antisym ex ey).
    destruct (ex ?= ey); simpl; try reflexivity.
    change (Pos.compare_cont Eq my mx) with (Pos.compare my mx).
    change (Pos.compare_cont Eq mx my) with (Pos.compare mx my).
    rewrite (Pos.compare_antisym mx my). 
    destruct (mx ?= my)%positive; reflexivity.
Qed.

(** On floats, [x < y] excludes [y <= x] and [y == x]; [x <= y] excludes
    [y < x].  (Not the converses: every comparison with a NaN is false.) *)
Lemma ltb_leb_false (x y : float) : (x <? y)%float = true -> (y <=? x)%float = false.
Proof.
  rewrite ltb_spec, leb_spec. unfold SFltb, SFleb.
  rewrite (SFcompare_antisym (Prim2SF x) (Prim2SF y)).
  destruct (SFcompare (Prim2SF x) (Prim2SF y)) as [[| |]|]; simpl; congruence.
Qed.

Lemma leb_ltb_false (x y : float) : (x <=? y)%float = true -> (y <? x)%float = false.
Proof.
  rewrite ltb_spec, leb_spec. unfold SFltb, SFleb.
  rewrite (SFcompare_antisym (Prim2SF x) (Prim2SF y)).
  destruct (SFcompare (Prim2SF x) (Prim2SF y)) as [[| |]|]; simpl; congruence.
Qed.

Lemma ltb_eqb_false (x y : float) : (x <? y)%float = true -> (y =? x)%float = false.
Proof.
  rewrite ltb_spec, eqb_spec. unfold SFltb, SFeqb.
  rewrite (SFcompare_antisym (Prim2SF x) (Prim2SF y)).
  destruct (SFcompare (Prim2SF x) (Prim2SF y)) as [[| |]|]; simpl; congruence.
Qed.

(** The sign of a difference and of a sum, on the specification. *)
Lemma SFsub_not_neg x y :
  valid_binary x = true -> valid_binary y = true ->
  SFltb x y = false -> SFleb y (S754_zero false) = false -> SFltb x (S754_zero false) = false ->
  SFltb (SF64sub x y) (S754_zero false) = false.
Proof.
  intros Vx Vy Hxy Hy Hx.
  destruct x as [sx|sx| |sx mx ex], y as [sy|sy| |sy my ey];
    try reflexivity; try discriminate;
    try (destruct sx; try discriminate; destruct sy; try discriminate; reflexivity).
  destruct sx; try discriminate. destruct sy; try discriminate.
  unfold SF64sub, SFsub. apply binary_normalize_not_neg.
  unfold cond_Zopp. apply finite_sub_not_neg; assumption.
Qed.

Lemma SFadd_not_neg x y :
  SFltb x (S754_zero false) = false -> SFleb y (S754_zero false) = false ->
  SFltb (SF64add x y) (S754_zero false) = false.
Proof.
  intros Hx Hy.
  destruct x as [sx|sx| |sx mx ex], y as [sy|sy| |sy my ey];
    try reflexivity; try discriminate;
    try (destruct sx; try discriminate; destruct sy; try discriminate; reflexivity).
  destruct sx; try discriminate. destruct sy; try discriminate.
  unfold SF64add, SFadd. apply binary_normalize_not_neg.
  unfold cond_Zopp. lia.
Qed.

Lemma Prim2SF_zero : Prim2SF 0%float = (S754_zero false).
Proof. reflexivity. Qed.

(** The two facts the ledger rests on.  A debit that passed the guards
    [amount <= 0] and [balance < amount] does not go below zero, and neither
    does a credit of such an amount; a NaN operand gives NaN, which is not
    below zero. *)
Lemma sub_not_negative (b m : float) :
  (m <=? 0)%float = false -> (b <? m)%float = false -> (b <? 0)%float = false ->
  (b - m <? 0)%float = false.
Proof.
  rewrite !ltb_spec, !leb_spec, sub_spec, Prim2SF_zero.
  intros Hm Hbm Hb. apply SFsub_not_neg; auto using Prim2SF_valid.
Qed.

Lemma add_not_negative (b m : float) :
  (b <? 0)%float = false -> (m <=? 0)%float = false ->
  (b + m <? 0)%float = false.
Proof.
  rewrite !ltb_spec, !leb_spec, add_spec, Prim2SF_zero.
  apply SFadd_not_neg.
Qed.

(** A number that is not below zero is zero or more; of a NaN neither
    holds. *)
Lemma not_negative_leb (x : float) :
  is_nan x = false -> (x <? 0)%float = false -> (0 <=? x)%float = true.
Proof.
  unfold is_nan. rewrite negb_false_iff.
  rewrite eqb_spec, ltb_spec, leb_spec, Prim2SF_zero.
  destruct (Prim2SF x) as [s|s| |s m e]; try destruct s;
    unfold SFeqb, SFltb, SFleb; simpl; congruence.
Qed.

Lemma leb_not_nan (x : float) : (0 <=? x)%float = true -> is_nan x = false.
Proof.
  unfold is_nan. rewrite negb_false_iff.
  rewrite eqb_spec, leb_spec, Prim2SF_zero.
  destruct (Prim2SF x) as [s|s| |s m e]; try destruct s;
    unfold SFeqb, SFleb; simpl; try congruence.
  - intros _. rewrite Z.compare_refl, Pos.compare_cont_refl. reflexivity.
Qed.

End Binary64.

(** * Rows and primary keys *)

Section Rows.

Lemma account_by_id_map (f : Account.t -> Account.t) l i :
  (forall a, Account.id (f a) = Account.id a) ->
  account_by_id (map f l) i = option_map f (account_by_id l i).
Proof.
  intros Hf. unfold account_by_id.
  induction l as [|a l IH]; simpl; [reflexivity|].
  rewrite Hf. destruct (Account.id a =? i); [reflexivity|exact IH].
Qed.

Lemma account_by_id_In l a :
  NoDup (map Account.id l) -> In a l -> account_by_id l (Account.id a) = Some a.
Proof.
  unfold account_by_id.
  induction l as [|b l IH]; simpl; intros ND HIn; [contradiction|].
  inversion ND as [|? ? Hnotin ND']; subst.
  destruct HIn as [->|HIn].
  - rewrite Z.eqb_refl. reflexivity.
  - destruct (Z.eqb_spec (Account.id b) (Account.id a)) as [E|E].
    + exfalso. apply Hnotin. rewrite E. apply in_map. exact HIn.
    + apply IH; assumption.
Qed.

Lemma account_by_id_id l i a :
  account_by_id l i = Some a -> Account.id a = i.
Proof.
  unfold account_by_id. intros H. apply find_some in H.
  destruct H as [_ H]. apply Z.eqb_eq in H. exact H.
Qed.

Lemma account_by_id_balance_sub l i m j :
  account_by_id (balance_sub i m l) j
  = option_map (fun a => if Account.id a =? i
                         then Account.with_balance a (Account.balance a - m)%float
                         else a) (account_by_id l j).
Proof.
  unfold balance_sub. apply account_by_id_map.
  intros a. destruct (Account.id a =? i); reflexivity.
Qed.

Lemma account_by_id_balance_add l i m j :
  account_by_id (balance_add i m l) j
  = option_map (fun a => if Account.id a =? i
                         then Account.with_balance a (Account.balance a + m)%float
                         else a) (account_by_id l j).
Proof.
  unfold balance_add. apply account_by_id_map.
  intros a. destruct (Account.id a =? i); reflexivity.
Qed.

Lemma balance_sub_ids i m l : map Account.id (balance_sub i m l) = map Account.id l.
Proof.
  unfold balance_sub. rewrite map_map. apply map_ext.
  intros a. destruct (Account.id a =? i); reflexivity.
Qed.

Lemma balance_add_ids i m l : map Account.id (balance_add i m l) = map Account.id l.
Proof.
  unfold balance_add. rewrite map_map. apply map_ext.
  intros a. destruct (Account.id a =? i); reflexivity.
Qed.

End Rows.

(** * transfer_money *)

(** What a transfer that passes every check does to the database. *)
Lemma transfer_money_success now uid data db A B m :
  truthy_str (from_account_number data) = true ->
  truthy_str (to_account_number data) = true ->
  python_float (transfer_amount data) = FloatOk m ->
  account_of_user (accounts db) (from_account_number data) uid = Some A ->
  account_by_number (accounts db) (to_account_number data) = Some B ->
  (0 <? m)%float = true ->
  (m <=? Account.balance A)%float = true ->
  transfer_money now (Some uid) data db
  = (let t := Transaction.mk (next_id (map Transaction.id (transactions db)))
                (Account.id A) (Account.id B) m (transfer_description data)
                "transfer" now in
     (TransferOk t (if Account.id A =? Account.id B
                    then (Account.balance A - m + m)%float
                    else (Account.balance A - m)%float),
      mkDb (users db)
           (balance_add (Account.id B) m
              (balance_sub (Account.id A) m (accounts db)))
           (transactions db ++ [t]) (recurring_payments db))).
Proof.
  intros Hfrom Hto Hm HA HB Hpos Hle.
  unfold transfer_money. rewrite Hfrom, Hto, Hm, HA, HB.
  assert (Ht : truthy (transfer_amount data) = true).
  { destruct (transfer_amount data); try discriminate; try reflexivity.
    simpl in Hm. injection Hm as ->. simpl.
    rewrite (ltb_eqb_false _ _ Hpos). reflexivity. }
  rewrite Ht. simpl.
  rewrite (ltb_leb_false _ _ Hpos), (leb_ltb_false _ _ Hle).
  reflexivity.
Qed.

(** C1, as amended: for a source account [A] owned by the caller, a
    destination account [B] other than [A] and an amount [m] with
    [0 < m <= balance A], the transfer succeeds; afterwards the balance of [A]
    is the binary64 difference [balance A - m], the balance of [B] is the
    binary64 sum [balance B + m], the account of every other key is as before,
    and the log has grown by exactly one transaction, of type "transfer", from
    [A] to [B], of amount [m]. *)
Theorem transfer_between_two_accounts now uid data db A B m :
  NoDup (map Account.id (accounts db)) ->
  truthy_str (from_account_number data) = true ->
  truthy_str (to_account_number data) = true ->
  python_float (transfer_amount data) = FloatOk m ->
  account_of_user (accounts db) (from_account_number data) uid = Some A ->
  account_by_number (accounts db) (to_account_number data) = Some B ->
  (0 <? m)%float = true ->
  (m <=? Account.balance A)%float = true ->
  Account.id A <> Account.id B ->
  let r := transfer_money now (Some uid) data db in
  (exists t,
      fst r = TransferOk t (Account.balance A - m)%float
      /\ transactions (snd r) = (transactions db ++ [t])%list
      /\ Transaction.transaction_type t = "transfer"
      /\ Transaction.from_account_id t = Account.id A
      /\ Transaction.to_account_id t = Account.id B
      /\ Transaction.amount t = m)
  /\ account_by_id (accounts (snd r)) (Account.id A)
     = Some (Account.with_balance A (Account.balance A - m)%float)
  /\ account_by_id (accounts (snd r)) (Account.id B)
     = Some (Account.with_balance B (Account.balance B + m)%float)
  /\ (forall i, i <> Account.id A -> i <> Account.id B ->
        account_by_id (accounts (snd r)) i = account_by_id (accounts db) i)
  /\ map Account.id (accounts (snd r)) = map Account.id (accounts db).
Proof.
  intros ND Hfrom Hto Hm HA HB Hpos Hle Hne r. subst r.
  rewrite (transfer_money_success now uid data db A B m) by assumption.
  cbv zeta. cbn [fst snd accounts transactions].
  assert (InA : In A (accounts db)) by (apply find_some in HA; tauto).
  assert (InB : In B (accounts db)) by (apply find_some in HB; tauto).
  apply Z.eqb_neq in Hne. rewrite Hne.
  assert (Hne' : (Account.id B =? Account.id A) = false)
    by (rewrite Z.eqb_sym; exact Hne).
  split; [eexists; repeat split; reflexivity|].
  repeat split.
  - rewrite account_by_id_balance_add, account_by_id_balance_sub.
    rewrite (account_by_id_In _ _ ND InA). simpl.
    rewrite Z.eqb_refl. simpl. rewrite Hne. reflexivity.
  - rewrite account_by_id_balance_add, account_by_id_balance_sub.
    rewrite (account_by_id_In _ _ ND InB). simpl.
    rewrite Hne'. rewrite Z.eqb_refl. reflexivity.
  - intros i HiA HiB.
    rewrite account_by_id_balance_add, account_by_id_balance_sub.
    destruct (account_by_id (accounts db) i) as [a|] eqn:E; [|reflexivity].
    apply account_by_id_id in E. subst i. simpl.
    apply Z.eqb_neq in HiA, HiB. rewrite HiA. rewrite HiB. reflexivity.
  - rewrite balance_add_ids, balance_sub_ids. reflexivity.
Qed.

Ltac nodup_keys :=
  repeat (constructor; [simpl; intuition discriminate|]); constructor.

(** The scenario of the specification: 50000 from alice's 250000 to bob's
    250000 leaves 200000 and 300000 and logs one transfer. *)
Lemma transfer_between_two_accounts_witness :
  let A := account_alice in
  let B := account_bob in
  let r := transfer_money 10 (Some 1)
             (transfer_of "1000000001" "1000000002" 50000) db_two in
  account_by_id (accounts (snd r)) 1 = Some (Account.with_balance A 200000)
  /\ account_by_id (accounts (snd r)) 2 = Some (Account.with_balance B 300000)
  /\ List.length (transactions (snd r)) = 1%nat.
Proof.
  intros A B r.
  pose proof (transfer_between_two_accounts 10 1
                (transfer_of "1000000001" "1000000002" 50000) db_two A B 50000
                ltac:(nodup_keys) eq_refl eq_refl eq_refl eq_refl eq_refl
                eq_refl eq_refl ltac:(discriminate)) as H.
  destruct H as ((t & _ & Ht & _) & HA & HB & _).
  split; [exact HA|]. split; [exact HB|].
  fold r in Ht. rewrite Ht. reflexivity.
Defined.

(** C1 as stated fails twice.  A transfer from an account to itself succeeds
    and leaves its 250000 where they were, 50000 being neither taken nor added;
    and between two accounts of 250000 an amount of 2^-40 is lost in the
    rounding of both operations, so that neither balance moves. *)
Lemma transfer_to_same_account_counterexample :
  let r := transfer_money 10 (Some 1)
             (transfer_of "1000000001" "1000000001" 50000) db_two in
  let r' := transfer_money 10 (Some 1)
              (transfer_of "1000000001" "1000000002" 0x1p-40) db_two in
  option_map Account.balance (account_by_id (accounts db_two) 1) = Some 250000%float
  /\ option_map Account.balance (account_by_id (accounts db_two) 2) = Some 250000%float
  /\ is_success (fst r) = true
  /\ option_map Account.balance (account_by_id (accounts (snd r)) 1) = Some 250000%float
  /\ (250000 - 50000 <? 250000)%float = true
  /\ is_success (fst r') = true
  /\ (0 <? 0x1p-40)%float = true
  /\ option_map Account.balance (account_by_id (accounts (snd r')) 1) = Some 250000%float
  /\ option_map Account.balance (account_by_id (accounts (snd r')) 2) = Some 250000%float.
Proof. vm_compute. repeat split. Qed.

(** C3: a transfer that answers with an error (401, 400, 404, or the 500 of an
    uncaught exception) returns the database it was given: no balance has
    moved and the log has not grown.  In particular, when the amount exceeds
    the balance of the source, the answer is the error "Insufficient funds"
    and the database is as before. *)
Theorem transfer_error_changes_nothing now session data db :
  (is_success (fst (transfer_money now session data db)) = false ->
   snd (transfer_money now session data db) = db)
  /\ (forall uid m A B,
        session = Some uid ->
        truthy_str (from_account_number data) = true ->
        truthy_str (to_account_number data) = true ->
        truthy (transfer_amount data) = true ->
        python_float (transfer_amount data) = FloatOk m ->
        (m <=? 0)%float = false ->
        account_of_user (accounts db) (from_account_number data) uid = Some A ->
        account_by_number (accounts db) (to_account_number data) = Some B ->
        (Account.balance A <? m)%float = true ->
        transfer_money now session data db
        = (Error 400 "Insufficient funds", db)).
Proof.
  split.
  - unfold transfer_money.
    destruct session as [uid|]; [|reflexivity].
    destruct (negb (truthy_str (from_account_number data))
              || negb (truthy_str (to_account_number data))
              || negb (truthy (transfer_amount data))); [reflexivity|].
    destruct (python_float (transfer_amount data)) as [m| |]; try reflexivity.
    destruct (m <=? 0)%float; [reflexivity|].
    destruct (account_of_user _ _ _) as [A|]; [|reflexivity].
    destruct (account_by_number _ _) as [B|]; [|reflexivity].
    destruct (Account.balance A <? m)%float; [reflexivity|].
    simpl. discriminate.
  - intros uid m A B -> Hfrom Hto Ht Hm Hpos HA HB Hlt.
    unfold transfer_money.
    rewrite Hfrom, Hto, Ht, Hm, Hpos, HA, HB, Hlt. reflexivity.
Qed.

(** bob asks for 300000 out of his 250000, and then names an account that does
    not exist. *)
Lemma transfer_error_changes_nothing_witness :
  transfer_money 10 (Some 2) (transfer_of "1000000002" "1000000001" 300000) db_two
  = (Error 400 "Insufficient funds", db_two)
  /\ snd (transfer_money 10 (Some 2)
            (transfer_of "1000000002" "9999999999" 10) db_two) = db_two.
Proof.
  split.
  - exact (proj2 (transfer_error_changes_nothing 10 (Some 2)
                    (transfer_of "1000000002" "1000000001" 300000) db_two)
                 2 300000%float
                 account_bob
                 account_alice
                 eq_refl eq_refl eq_refl eq_refl eq_refl eq_refl eq_refl
                 eq_refl eq_refl).
  - exact (proj1 (transfer_error_changes_nothing 10 (Some 2)
                    (transfer_of "1000000002" "9999999999" 10) db_two) eq_refl).
Defined.

(** * charge_customer *)

Lemma find_none_of {A} (f : A -> bool) l :
  (forall x, In x l -> f x = false) -> find f l = None.
Proof.
  induction l as [|a l IH]; simpl; intros H; [reflexivity|].
  rewrite (H a (or_introl eq_refl)). apply IH. intros x Hx. apply H. right. exact Hx.
Qed.

Lemma NoDup_map_same {A B} (f : A -> B) l a b :
  NoDup (map f l) -> In a l -> In b l -> f a = f b -> a = b.
Proof.
  induction l as [|c l IH]; simpl; intros ND Ha Hb E; [contradiction|].
  inversion ND as [|? ? Hnotin ND']; subst.
  destruct Ha as [->|Ha], Hb as [->|Hb].
  - reflexivity.
  - exfalso. apply Hnotin. rewrite E. apply in_map. exact Hb.
  - exfalso. apply Hnotin. rewrite <- E. apply in_map. exact Ha.
  - apply IH; assumption.
Qed.

(** C5, as amended: when the account that a charge names exists but is of type
    "personal", a request that is otherwise complete (logged in, every field
    present, a positive amount) is answered with status 404 and the message
    "Business account not found or not owned by you", whatever the balances
    are, and the database is returned as it was.  A request that names no
    account at all, or an account of another user, gets this very answer: the
    handler has one error for the three cases of its query. *)
Theorem charge_on_personal_account now uid data db m a :
  NoDup (map Account.account_number (accounts db)) ->
  truthy_str (charge_business_account_number data) = true ->
  truthy_str (customer_username data) = true ->
  truthy_str (customer_pin data) = true ->
  truthy (charge_amount data) = true ->
  truthy_str (reason data) = true ->
  python_float (charge_amount data) = FloatOk m ->
  (m <=? 0)%float = false ->
  account_by_number (accounts db) (charge_business_account_number data) = Some a ->
  Account.account_type a = "personal" ->
  charge_customer now (Some uid) data db
  = (Error 404 "Business account not found or not owned by you", db)
  /\ (forall missing,
       truthy_str missing = true ->
       account_by_number (accounts db) missing = None ->
       charge_customer now (Some uid)
         {| charge_business_account_number := missing;
            customer_username := customer_username data;
            customer_pin := customer_pin data;
            charge_amount := charge_amount data;
            reason := reason data;
            charge_description := charge_description data |} db
       = (Error 404 "Business account not found or not owned by you", db))
  /\ (forall number other,
        truthy_str number = true ->
        account_by_number (accounts db) number = Some other ->
        Account.user_id other <> uid ->
        charge_customer now (Some uid)
          {| charge_business_account_number := number;
             customer_username := customer_username data;
             customer_pin := customer_pin data;
             charge_amount := charge_amount data;
             reason := reason data;
             charge_description := charge_description data |} db
        = (Error 404 "Business account not found or not owned by you", db)).
Proof.
  intros ND Hb Hu Hp Ht Hr Hm Hpos Ha Hty.
  split; [|split].
  - unfold charge_customer. rewrite Hb, Hu, Hp, Ht, Hr, Hm, Hpos. simpl.
    replace (business_account_of_user (accounts db)
               (charge_business_account_number data) uid) with (@None Account.t);
      [reflexivity|].
    symmetry. apply find_none_of. intros x Hx.
    destruct (String.eqb_spec (Account.account_number x)
                (charge_business_account_number data)) as [E|E]; [|reflexivity].
    assert (x = a) as ->.
    { apply find_some in Ha. destruct Ha as [Ha Hn].
      apply String.eqb_eq in Hn.
      apply (NoDup_map_same Account.account_number (accounts db)); congruence. }
    rewrite Hty. rewrite andb_false_r. reflexivity.
  - intros missing Hmiss Hnone.
    unfold charge_customer. simpl. rewrite Hmiss, Hu, Hp, Ht, Hr, Hm, Hpos. simpl.
    replace (business_account_of_user (accounts db) missing uid)
      with (@None Account.t); [reflexivity|].
    symmetry. apply find_none_of. intros x Hx.
    unfold account_by_number in Hnone.
    rewrite (find_none _ _ Hnone x Hx). reflexivity.
  - intros number other Hnum Ho Hne.
    unfold charge_customer. simpl. rewrite Hnum, Hu, Hp, Ht, Hr, Hm, Hpos. simpl.
    replace (business_account_of_user (accounts db) number uid)
      with (@None Account.t); [reflexivity|].
    symmetry. apply find_none_of. intros x Hx.
    destruct (String.eqb_spec (Account.account_number x) number) as [E|E];
      [|reflexivity].
    assert (x = other) as ->.
    { apply find_some in Ho. destruct Ho as [Ho Hn].
      apply String.eqb_eq in Hn.
      apply (NoDup_map_same Account.account_number (accounts db)); congruence. }
    apply Z.eqb_neq in Hne. rewrite Hne. reflexivity.
Qed.

(** bob names his own personal account to charge alice 1000. *)
Lemma charge_on_personal_account_witness :
  charge_customer 10 (Some 2) (charge_of "1000000002" "alice" "1234" 1000) db_three
  = (Error 404 "Business account not found or not owned by you", db_three).
Proof.
  exact (proj1 (charge_on_personal_account 10 2
                  (charge_of "1000000002" "alice" "1234" 1000) db_three 1000%float
                  account_bob
                  ltac:(nodup_keys) eq_refl eq_refl eq_refl eq_refl eq_refl
                  eq_refl eq_refl eq_refl eq_refl)).
Defined.

(** C5 as stated fails: the answer to a charge on a personal account is not of
    a kind of its own.  bob gets one and the same response when he names his
    personal account, an account number that nobody has, and the business
    account of alice. *)
Lemma charge_error_kinds_counterexample :
  let personal := charge_of "1000000002" "alice" "1234" 1000 in
  let missing := charge_of "9999999999" "alice" "1234" 1000 in
  let not_owned := charge_of "1000000001" "alice" "1234" 1000 in
  option_map Account.account_type (account_by_number (accounts db_three) "1000000002")
  = Some "personal"
  /\ account_by_number (accounts db_three) "9999999999" = None
  /\ option_map Account.user_id (account_by_number (accounts db_three) "1000000001")
     = Some 1
  /\ fst (charge_customer 10 (Some 2) personal db_three)
     = Error 404 "Business account not found or not owned by you"
  /\ fst (charge_customer 10 (Some 2) missing db_three)
     = fst (charge_customer 10 (Some 2) personal db_three)
  /\ fst (charge_customer 10 (Some 2) not_owned db_three)
     = fst (charge_customer 10 (Some 2) personal db_three).
Proof. vm_compute. repeat split. Qed.

(** * cancel_recurring_payment *)

Section Payments.

Lemma payment_by_id_map (f : RecurringPayment.t -> RecurringPayment.t) l i :
  (forall p, RecurringPayment.id (f p) = RecurringPayment.id p) ->
  payment_by_id (map f l) i = option_map f (payment_by_id l i).
Proof.
  intros Hf. unfold payment_by_id.
  induction l as [|p l IH]; simpl; [reflexivity|].
  rewrite Hf. destruct (RecurringPayment.id p =? i); [reflexivity|exact IH].
Qed.

Lemma payment_by_id_id l i p :
  payment_by_id l i = Some p -> RecurringPayment.id p = i.
Proof.
  unfold payment_by_id. intros H. apply find_some in H.
  destruct H as [_ H]. apply Z.eqb_eq in H. exact H.
Qed.

Lemma payment_by_id_In l p :
  NoDup (map RecurringPayment.id l) -> In p l ->
  payment_by_id l (RecurringPayment.id p) = Some p.
Proof.
  unfold payment_by_id.
  induction l as [|q l IH]; simpl; intros ND HIn; [contradiction|].
  inversion ND as [|? ? Hnotin ND']; subst.
  destruct HIn as [->|HIn].
  - rewrite Z.eqb_refl. reflexivity.
  - destruct (Z.eqb_spec (RecurringPayment.id q) (RecurringPayment.id p)) as [E|E].
    + exfalso. apply Hnotin. rewrite E. apply in_map. exact HIn.
    + apply IH; assumption.
Qed.

Lemma payment_by_id_set_inactive l i j :
  payment_by_id (set_inactive i l) j
  = option_map (fun p => if RecurringPayment.id p =? i
                         then RecurringPayment.with_is_active p false else p)
               (payment_by_id l j).
Proof.
  unfold set_inactive. apply payment_by_id_map.
  intros p. destruct (RecurringPayment.id p =? i); reflexivity.
Qed.

Lemma set_inactive_twice i l : set_inactive i (set_inactive i l) = set_inactive i l.
Proof.
  unfold set_inactive. rewrite map_map. apply map_ext. intros p.
  destruct (RecurringPayment.id p =? i) eqn:E; simpl; rewrite E; reflexivity.
Qed.

Lemma payment_by_id_advance l i d j :
  payment_by_id (advance_next_payment_date i d l) j
  = option_map (fun p => if RecurringPayment.id p =? i
                         then RecurringPayment.with_next_payment_date p
                                (RecurringPayment.next_payment_date p + d)
                         else p)
               (payment_by_id l j).
Proof.
  unfold advance_next_payment_date. apply payment_by_id_map.
  intros p. destruct (RecurringPayment.id p =? i); reflexivity.
Qed.

Lemma advance_ids i d l :
  map RecurringPayment.id (advance_next_payment_date i d l)
  = map RecurringPayment.id l.
Proof.
  unfold advance_next_payment_date. rewrite map_map. apply map_ext.
  intros p. destruct (RecurringPayment.id p =? i); reflexivity.
Qed.

End Payments.

(** C8: when the payment exists and its source is a business account of the
    caller, cancelling answers with success and stores the payment with
    [is_active] false and every other field as it was; no other payment, no
    user, account or transaction changes.  It does not look at the flag: a
    second cancellation succeeds as well and returns the database of the
    first. *)
Theorem cancel_is_idempotent uid payment_id db p business :
  payment_by_id (recurring_payments db) payment_id = Some p ->
  business_account_by_id (accounts db) (RecurringPayment.from_account_id p) uid
  = Some business ->
  let r1 := cancel_recurring_payment (Some uid) payment_id db in
  let r2 := cancel_recurring_payment (Some uid) payment_id (snd r1) in
  fst r1 = RecurringCancelled
  /\ payment_by_id (recurring_payments (snd r1)) payment_id
     = Some (RecurringPayment.mk
               (RecurringPayment.id p) (RecurringPayment.from_account_id p)
               (RecurringPayment.to_account_id p) (RecurringPayment.amount p)
               (RecurringPayment.description p) (RecurringPayment.frequency p)
               false
               (RecurringPayment.next_payment_date p)
               (RecurringPayment.created_at p))
  /\ (forall j, j <> payment_id ->
        payment_by_id (recurring_payments (snd r1)) j
        = payment_by_id (recurring_payments db) j)
  /\ users (snd r1) = users db
  /\ accounts (snd r1) = accounts db
  /\ transactions (snd r1) = transactions db
  /\ fst r2 = RecurringCancelled
  /\ snd r2 = snd r1.
Proof.
  intros Hp Hb r1 r2.
  assert (Hid : RecurringPayment.id p = payment_id)
    by (eapply payment_by_id_id; exact Hp).
  assert (E1 : r1 = (RecurringCancelled,
                     with_recurring_payments db
                       (set_inactive payment_id (recurring_payments db)))).
  { unfold r1, cancel_recurring_payment. rewrite Hp, Hb, Hid. reflexivity. }
  assert (Hp1 : payment_by_id (recurring_payments (snd r1)) payment_id
                = Some (RecurringPayment.with_is_active p false)).
  { rewrite E1. cbn [snd with_recurring_payments recurring_payments].
    rewrite payment_by_id_set_inactive, Hp. simpl.
    rewrite Hid, Z.eqb_refl. reflexivity. }
  assert (E2 : r2 = (RecurringCancelled, snd r1)).
  { unfold r2, cancel_recurring_payment. rewrite Hp1.
    cbn [RecurringPayment.from_account_id RecurringPayment.with_is_active
         RecurringPayment.id].
    rewrite E1 at 1. cbn [snd with_recurring_payments accounts]. rewrite Hb.
    rewrite Hid, E1. cbn [snd with_recurring_payments recurring_payments].
    rewrite set_inactive_twice. reflexivity. }
  rewrite E2. split; [rewrite E1; reflexivity|].
  split; [exact Hp1|].
  split.
  { intros j Hj. rewrite E1. cbn [snd with_recurring_payments recurring_payments].
    rewrite payment_by_id_set_inactive.
    destruct (payment_by_id (recurring_payments db) j) as [q|] eqn:E; [|reflexivity].
    apply payment_by_id_id in E. simpl. subst j.
    apply Z.eqb_neq in Hj. rewrite Hj. reflexivity. }
  rewrite E1. repeat split.
Qed.

(** alice cancels the salary of bob, twice. *)
Lemma cancel_is_idempotent_witness :
  let r1 := cancel_recurring_payment (Some 1) 1 db_salary in
  let r2 := cancel_recurring_payment (Some 1) 1 (snd r1) in
  payment_by_id (recurring_payments db_salary) 1 = Some salary
  /\ fst r1 = RecurringCancelled
  /\ fst r2 = RecurringCancelled
  /\ snd r2 = snd r1
  /\ option_map RecurringPayment.is_active
       (payment_by_id (recurring_payments (snd r2)) 1) = Some false.
Proof.
  intros r1 r2.
  pose proof (cancel_is_idempotent 1 1 db_salary salary account_alice
                eq_refl eq_refl) as H.
  cbv zeta in H. fold r1 in H. fold r2 in H.
  destruct H as (H1 & Hp & _ & _ & _ & _ & H2 & E).
  split; [reflexivity|]. split; [exact H1|]. split; [exact H2|].
  split; [exact E|]. rewrite E, Hp. reflexivity.
Defined.

(** * process_recurring_payments *)

Section Loop.

Variable now : datetime.

(** The iteration that pays. *)
Lemma process_payment_paid db n f p :
  can_pay db p = true ->
  process_payment now (db, n, f) p = (paid now db p, S n, f).
Proof.
  unfold can_pay, process_payment, paid. intros H.
  destruct (account_by_id (accounts db) (RecurringPayment.from_account_id p))
    as [a|]; [|discriminate].
  destruct (account_by_id (accounts db) (RecurringPayment.to_account_id p))
    as [b|] eqn:Eb; [|discriminate].
  rewrite H. rewrite account_by_id_balance_sub, Eb. reflexivity.
Qed.

(** The iteration that does not: it counts a failure and writes nothing to
    the payments and the log. *)
Lemma process_payment_failed db n f p :
  can_pay db p = false ->
  exists accounts',
    process_payment now (db, n, f) p = (with_accounts db accounts', n, S f).
Proof.
  unfold can_pay, process_payment. intros H.
  destruct (account_by_id (accounts db) (RecurringPayment.from_account_id p))
    as [a|].
  - destruct (RecurringPayment.amount p <=? Account.balance a)%float.
    + rewrite account_by_id_balance_sub.
      destruct (account_by_id (accounts db) (RecurringPayment.to_account_id p))
        as [b|]; [discriminate|].
      simpl. eexists. reflexivity.
    + exists (accounts db). destruct db; reflexivity.
  - exists (accounts db). destruct db; reflexivity.
Qed.

(** The iteration on a payment whose source does not cover the amount. *)
Lemma process_payment_insufficient db n f p source :
  account_by_id (accounts db) (RecurringPayment.from_account_id p) = Some source ->
  (Account.balance source <? RecurringPayment.amount p)%float = true ->
  process_payment now (db, n, f) p = (db, n, S f).
Proof.
  intros Hs Hlt. unfold process_payment. rewrite Hs.
  rewrite (ltb_leb_false _ _ Hlt). reflexivity.
Qed.

Lemma process_payment_cases st p :
  (can_pay (st_db st) p = true
   /\ process_payment now st p
      = (paid now (st_db st) p, S (st_processed st), st_failed st))
  \/ (can_pay (st_db st) p = false
      /\ exists accounts',
           process_payment now st p
           = (with_accounts (st_db st) accounts', st_processed st,
              S (st_failed st))).
Proof.
  destruct st as [[db n] f]. cbn [st_db st_processed st_failed fst snd].
  destruct (can_pay db p) eqn:E.
  - left. split; [reflexivity|]. apply process_payment_paid. exact E.
  - right. split; [reflexivity|]. apply process_payment_failed. exact E.
Qed.

(** The record of a payment after the iteration on another one. *)
Lemma process_payment_other st q i :
  RecurringPayment.id q <> i ->
  payment_by_id (recurring_payments (st_db (process_payment now st q))) i
  = payment_by_id (recurring_payments (st_db st)) i.
Proof.
  intros Hne.
  destruct (process_payment_cases st q) as [[_ ->]|[_ [accs ->]]];
    cbn [st_db fst snd paid with_accounts recurring_payments]; [|reflexivity].
  rewrite payment_by_id_advance.
  destruct (payment_by_id (recurring_payments (st_db st)) i) as [p|] eqn:E;
    [|reflexivity].
  apply payment_by_id_id in E. simpl. subst i.
  destruct (Z.eqb_spec (RecurringPayment.id p) (RecurringPayment.id q));
    [congruence|reflexivity].
Qed.

(** The record of the payment after its own iteration. *)
Lemma process_payment_self st p :
  payment_by_id (recurring_payments (st_db st)) (RecurringPayment.id p) = Some p ->
  payment_by_id (recurring_payments (st_db (process_payment now st p)))
                (RecurringPayment.id p)
  = Some (if can_pay (st_db st) p then advanced p else p).
Proof.
  intros Hp.
  destruct (process_payment_cases st p) as [[-> ->]|[-> [accs ->]]];
    cbn [st_db fst snd paid with_accounts recurring_payments]; [|exact Hp].
  rewrite payment_by_id_advance, Hp. simpl. rewrite Z.eqb_refl. reflexivity.
Qed.

Lemma process_payment_ids st q :
  map RecurringPayment.id (recurring_payments (st_db (process_payment now st q)))
  = map RecurringPayment.id (recurring_payments (st_db st)).
Proof.
  destruct (process_payment_cases st q) as [[_ ->]|[_ [accs ->]]];
    cbn [st_db fst snd paid with_accounts recurring_payments]; [|reflexivity].
  apply advance_ids.
Qed.

Lemma loop_other l st i :
  (forall q, In q l -> RecurringPayment.id q <> i) ->
  payment_by_id
    (recurring_payments (st_db (fold_left (process_payment now) l st))) i
  = payment_by_id (recurring_payments (st_db st)) i.
Proof.
  revert st. induction l as [|q l IH]; intros st H; simpl; [reflexivity|].
  rewrite IH by (intros q' Hq'; apply H; right; exact Hq').
  apply process_payment_other. apply H. left. reflexivity.
Qed.

Lemma loop_ids l st :
  map RecurringPayment.id
      (recurring_payments (st_db (fold_left (process_payment now) l st)))
  = map RecurringPayment.id (recurring_payments (st_db st)).
Proof.
  revert st. induction l as [|q l IH]; intros st; simpl; [reflexivity|].
  rewrite IH. apply process_payment_ids.
Qed.

(** Every iteration adds one to exactly one of the two counters. *)
Lemma loop_counters l st :
  let st' := fold_left (process_payment now) l st in
  (st_processed st' + st_failed st'
   = st_processed st + st_failed st + List.length l)%nat
  /\ (st_processed st <= st_processed st')%nat
  /\ (st_failed st <= st_failed st')%nat.
Proof.
  revert st. induction l as [|q l IH]; intros st; cbn zeta; simpl fold_left.
  - simpl. lia.
  - specialize (IH (process_payment now st q)). cbn zeta in IH.
    destruct IH as (IH1 & IH2 & IH3).
    destruct (process_payment_cases st q) as [[_ E]|[_ [accs E]]];
      rewrite E in *; cbn [st_processed st_failed fst snd] in *;
      simpl List.length; lia.
Qed.

End Loop.

Lemma NoDup_map_filter {A B} (f : A -> B) (g : A -> bool) l :
  NoDup (map f l) -> NoDup (map f (filter g l)).
Proof.
  induction l as [|a l IH]; simpl; intros ND; [constructor|].
  inversion ND as [|? ? Hnotin ND']; subst.
  destruct (g a); simpl; [|apply IH; exact ND'].
  constructor; [|apply IH; exact ND'].
  intros HIn. apply Hnotin. apply in_map_iff in HIn.
  destruct HIn as (x & Hx & HIn). apply filter_In in HIn.
  rewrite <- Hx. apply in_map. tauto.
Qed.

Lemma process_recurring_payments_loop now db :
  process_recurring_payments now db
  = (RecurringProcessed
       (st_processed (loop_after now db (due_payments now db)))
       (st_failed (loop_after now db (due_payments now db))),
     st_db (loop_after now db (due_payments now db))).
Proof.
  unfold process_recurring_payments, loop_after.
  destruct (fold_left _ _ _) as [[db' n] f]. reflexivity.
Qed.

(** The members of a list of payments with distinct keys, around one of them. *)
Lemma split_keys l1 (p : RecurringPayment.t) l2 :
  NoDup (map RecurringPayment.id (l1 ++ p :: l2)) ->
  (forall q, In q l1 -> RecurringPayment.id q <> RecurringPayment.id p)
  /\ (forall q, In q l2 -> RecurringPayment.id q <> RecurringPayment.id p).
Proof.
  rewrite map_app. simpl. intros ND. apply NoDup_remove_2 in ND.
  split; intros q Hq E; apply ND; apply in_or_app; [left|right];
    rewrite <- E; apply in_map; exact Hq.
Qed.

(** The record of a due payment when the call returns: moved on by the offset
    of its frequency if its iteration paid, and as it was if not. *)
Lemma run_record_of_due now db l1 p l2 :
  NoDup (map RecurringPayment.id (recurring_payments db)) ->
  due_payments now db = l1 ++ p :: l2 ->
  payment_by_id
    (recurring_payments (snd (process_recurring_payments now db)))
    (RecurringPayment.id p)
  = Some (if can_pay (st_db (loop_after now db l1)) p then advanced p else p).
Proof.
  intros ND Hdue.
  assert (NDdue : NoDup (map RecurringPayment.id (l1 ++ p :: l2))).
  { rewrite <- Hdue. apply NoDup_map_filter. exact ND. }
  destruct (split_keys _ _ _ NDdue) as [H1 H2].
  assert (Hin : In p (recurring_payments db)).
  { assert (In p (due_payments now db)) as Hd
        by (rewrite Hdue; apply in_elt).
    apply filter_In in Hd. tauto. }
  rewrite process_recurring_payments_loop. cbn [snd].
  unfold loop_after. rewrite Hdue, fold_left_app. simpl fold_left.
  rewrite loop_other by exact H2.
  apply process_payment_self.
  rewrite loop_other by exact H1.
  apply payment_by_id_In; assumption.
Qed.

(** The record of a payment that is not due when the call returns. *)
Lemma run_record_of_not_due now db p :
  NoDup (map RecurringPayment.id (recurring_payments db)) ->
  In p (recurring_payments db) ->
  is_due now p = false ->
  payment_by_id
    (recurring_payments (snd (process_recurring_payments now db)))
    (RecurringPayment.id p)
  = Some p.
Proof.
  intros ND Hin Hnot.
  rewrite process_recurring_payments_loop. cbn [snd].
  unfold loop_after. rewrite loop_other.
  - apply payment_by_id_In; assumption.
  - intros q Hq E. apply filter_In in Hq. destruct Hq as [Hq Hdue].
    assert (q = p)
      by (apply (NoDup_map_same RecurringPayment.id (recurring_payments db));
          assumption).
    congruence.
Qed.

Lemma run_ids now db :
  map RecurringPayment.id
      (recurring_payments (snd (process_recurring_payments now db)))
  = map RecurringPayment.id (recurring_payments db).
Proof.
  rewrite process_recurring_payments_loop. cbn [snd]. apply loop_ids.
Qed.

Lemma frequency_delta_values :
  frequency_delta "weekly" = days 7
  /\ frequency_delta "monthly" = days 30
  /\ frequency_delta "yearly" = days 365.
Proof. repeat split. Qed.

(** C6: when the iteration on a due payment pays it, the call stores the
    payment with its [next_payment_date] moved on from the date it had, not
    from the current time, by the offset of its frequency, and with every
    other field as it was: 7 days for "weekly", 30 days for "monthly", 365 days
    for "yearly". *)
Theorem processing_advances_next_payment_date now db l1 p l2 :
  NoDup (map RecurringPayment.id (recurring_payments db)) ->
  due_payments now db = l1 ++ p :: l2 ->
  can_pay (st_db (loop_after now db l1)) p = true ->
  payment_by_id
    (recurring_payments (snd (process_recurring_payments now db)))
    (RecurringPayment.id p)
  = Some (RecurringPayment.with_next_payment_date p
            (RecurringPayment.next_payment_date p
             + frequency_delta (RecurringPayment.frequency p)))
  /\ frequency_delta "weekly" = days 7
  /\ frequency_delta "monthly" = days 30
  /\ frequency_delta "yearly" = days 365.
Proof.
  intros ND Hdue Hpay.
  split; [|exact frequency_delta_values].
  rewrite (run_record_of_due now db l1 p l2 ND Hdue), Hpay. reflexivity.
Qed.

(** The salary created at time 100 is due at 100 + 30 days; processed 45 days
    after its creation, it is next due at 100 + 60 days. *)
Lemma processing_advances_next_payment_date_witness :
  option_map RecurringPayment.next_payment_date
    (payment_by_id
       (recurring_payments
          (snd (process_recurring_payments (100 + days 45) db_salary))) 1)
  = Some (100 + days 30 + days 30).
Proof.
  pose proof (processing_advances_next_payment_date (100 + days 45) db_salary
                [] salary [] ltac:(nodup_keys) eq_refl eq_refl) as H.
  destruct H as [H _].
  change (RecurringPayment.id salary) with 1 in H.
  rewrite H. reflexivity.
Defined.

(** C7: when the loop reaches a due payment whose source holds less than the
    amount, the iteration returns the database it was given, so that no
    balance, no payment and no transaction changes, and adds one to the
    failure counter.  When the call returns, the payment is stored as it was,
    still active and due, and the response carries the two counters, which
    add up to the number of due payments and count this failure. *)
Theorem insufficient_funds_leave_payment_due now db l1 p l2 db1 n f source :
  NoDup (map RecurringPayment.id (recurring_payments db)) ->
  due_payments now db = l1 ++ p :: l2 ->
  loop_after now db l1 = (db1, n, f) ->
  account_by_id (accounts db1) (RecurringPayment.from_account_id p) = Some source ->
  (Account.balance source <? RecurringPayment.amount p)%float = true ->
  let r := process_recurring_payments now db in
  process_payment now (db1, n, f) p = (db1, n, S f)
  /\ payment_by_id (recurring_payments (snd r)) (RecurringPayment.id p) = Some p
  /\ In p (due_payments now (snd r))
  /\ exists processed failed,
       fst r = RecurringProcessed processed failed
       /\ (processed + failed = List.length (due_payments now db))%nat
       /\ (f < failed)%nat.
Proof.
  intros ND Hdue Hloop Hs Hlt r.
  assert (Hstep : process_payment now (db1, n, f) p = (db1, n, S f))
    by (eapply process_payment_insufficient; eassumption).
  assert (Hcan : can_pay (st_db (loop_after now db l1)) p = false).
  { rewrite Hloop. cbn [st_db fst]. unfold can_pay. rewrite Hs.
    destruct (account_by_id _ (RecurringPayment.to_account_id p));
      [apply ltb_leb_false; exact Hlt|reflexivity]. }
  assert (Hrec : payment_by_id (recurring_payments (snd r))
                               (RecurringPayment.id p) = Some p).
  { unfold r. rewrite (run_record_of_due now db l1 p l2 ND Hdue), Hcan.
    reflexivity. }
  split; [exact Hstep|]. split; [exact Hrec|]. split.
  { apply filter_In. split.
    - unfold payment_by_id in Hrec. apply find_some in Hrec. tauto.
    - assert (In p (due_payments now db)) as Hd by (rewrite Hdue; apply in_elt).
      apply filter_In in Hd. tauto. }
  unfold r. rewrite process_recurring_payments_loop. cbn [fst].
  eexists. eexists. split; [reflexivity|].
  split.
  - pose proof (loop_counters now (due_payments now db) (db, 0, 0)%nat) as H.
    cbv zeta in H. destruct H as [H _]. exact H.
  - unfold loop_after. rewrite Hdue, fold_left_app. simpl fold_left.
    fold (loop_after now db l1). rewrite Hloop, Hstep.
    pose proof (loop_counters now l2 (db1, n, S f)) as H.
    cbv zeta in H. destruct H as (_ & _ & H).
    unfold st_failed in *. cbn [snd] in H. lia.
Qed.

(** With 500 on her account, alice cannot pay the salary of 1000 that is due:
    the iteration counts a failure and writes nothing, and the salary is
    stored as it was when the call returns. *)
Lemma insufficient_funds_leave_payment_due_witness :
  let now := 100 + days 45 in
  due_payments now db_poor = [salary]
  /\ process_payment now (db_poor, 0%nat, 0%nat) salary = (db_poor, 0%nat, 1%nat)
  /\ payment_by_id
       (recurring_payments (snd (process_recurring_payments now db_poor))) 1
     = Some salary.
Proof.
  intros now. split; [reflexivity|].
  pose proof (insufficient_funds_leave_payment_due now db_poor [] salary []
                db_poor 0%nat 0%nat (Account.with_balance account_alice 500)
                ltac:(nodup_keys) eq_refl eq_refl eq_refl eq_refl) as H.
  cbv zeta in H. destruct H as (H1 & H2 & _).
  split; [exact H1|exact H2].
Defined.

(** What a run of the loop adds to the log: one transaction for each payment
    it counts as processed, each for a payment of the list. *)
Lemma loop_log now l st :
  let st' := fold_left (process_payment now) l st in
  exists new,
    transactions (st_db st') = transactions (st_db st) ++ new
    /\ List.length new = (st_processed st' - st_processed st)%nat
    /\ Forall (fun t => exists q, In q l /\ salary_of q t) new.
Proof.
  revert st. induction l as [|q l IH]; intros st; cbn zeta; simpl fold_left.
  - exists []. rewrite app_nil_r, Nat.sub_diag. repeat split. constructor.
  - specialize (IH (process_payment now st q)). cbn zeta in IH.
    destruct IH as (new & T & L & F).
    pose proof (loop_counters now l (process_payment now st q)) as C.
    cbv zeta in C. destruct C as (_ & C & _).
    assert (F' : Forall (fun t => exists q', In q' (q :: l) /\ salary_of q' t) new).
    { revert F. apply Forall_impl. intros t (q' & Hq' & S).
      exists q'. split; [right; exact Hq'|exact S]. }
    destruct (process_payment_cases now st q) as [[_ E]|[_ [accs E]]];
      rewrite E in *;
      cbn [st_db st_processed fst snd paid with_accounts transactions] in *.
    + eexists (_ :: new). rewrite T, <- app_assoc. split; [reflexivity|].
      split; [simpl List.length; lia|].
      constructor; [|exact F'].
      exists q. split; [left; reflexivity|]. repeat split.
    + exists new. split; [exact T|]. split; [exact L|exact F'].
Qed.

(** C4, as amended: let [p] be due at [now], with distinct keys in the table,
    and let [now] be earlier than the date of [p] moved on by one offset of its
    frequency.  Two calls in succession at [now] pay [p] at most once.  When
    the iteration of the first call on [p] pays it (it moves the amount, logs
    the transaction and moves the date on), [p] is stored with a date after
    [now], the second call selects no payment with the key of [p], leaves its
    record as it is, and every transaction it logs is the salary of one of the
    other payments that it selected, one for each payment it counts as
    processed.  When the iteration of the first call does not pay [p], its
    record is as it was and the second call selects it again. *)
Theorem second_call_skips_paid_payment now db l1 p l2 :
  NoDup (map RecurringPayment.id (recurring_payments db)) ->
  due_payments now db = l1 ++ p :: l2 ->
  now < RecurringPayment.next_payment_date p
        + frequency_delta (RecurringPayment.frequency p) ->
  let st := loop_after now db l1 in
  let r1 := process_recurring_payments now db in
  let r2 := process_recurring_payments now (snd r1) in
  let record d := payment_by_id (recurring_payments d) (RecurringPayment.id p) in
  (can_pay (st_db st) p = true ->
   process_payment now st p
   = (paid now (st_db st) p, S (st_processed st), st_failed st)
   /\ record (snd r1) = Some (advanced p)
   /\ now < RecurringPayment.next_payment_date (advanced p)
   /\ (forall q, In q (due_payments now (snd r1)) ->
         RecurringPayment.id q <> RecurringPayment.id p)
   /\ record (snd r2) = Some (advanced p)
   /\ exists processed failed new,
        fst r2 = RecurringProcessed processed failed
        /\ (processed + failed = List.length (due_payments now (snd r1)))%nat
        /\ transactions (snd r2) = transactions (snd r1) ++ new
        /\ List.length new = processed
        /\ Forall (fun t => exists q,
                     In q (due_payments now (snd r1))
                     /\ RecurringPayment.id q <> RecurringPayment.id p
                     /\ salary_of q t) new)
  /\ (can_pay (st_db st) p = false ->
      record (snd r1) = Some p /\ In p (due_payments now (snd r1))).
Proof.
  intros ND Hdue Hlt st r1 r2 record.
  pose proof (run_record_of_due now db l1 p l2 ND Hdue) as H1.
  fold st in H1. fold r1 in H1.
  assert (ND1 : NoDup (map RecurringPayment.id (recurring_payments (snd r1))))
    by (unfold r1; rewrite run_ids; exact ND).
  assert (Hin : In p (due_payments now db)) by (rewrite Hdue; apply in_elt).
  split; intros Hpay; rewrite Hpay in H1.
  - assert (Hnot : is_due now (advanced p) = false).
    { unfold is_due, advanced. cbn [RecurringPayment.next_payment_date
        RecurringPayment.with_next_payment_date RecurringPayment.is_active].
      apply andb_false_iff. right. apply Z.leb_gt. exact Hlt. }
    assert (Hin1 : In (advanced p) (recurring_payments (snd r1)))
      by (unfold payment_by_id in H1; apply find_some in H1; tauto).
    assert (Hskip : forall q, In q (due_payments now (snd r1)) ->
                      RecurringPayment.id q <> RecurringPayment.id p).
    { intros q Hq E. apply filter_In in Hq. destruct Hq as [Hq Hd].
      assert (q = advanced p)
        by (apply (NoDup_map_same RecurringPayment.id
                     (recurring_payments (snd r1))); assumption).
      congruence. }
    split.
    { destruct (process_payment_cases now st p) as [[_ E]|[E _]];
        [exact E|congruence]. }
    split; [exact H1|]. split; [exact Hlt|]. split; [exact Hskip|].
    split; [exact (run_record_of_not_due now (snd r1) (advanced p) ND1 Hin1 Hnot)|].
    unfold r2. rewrite process_recurring_payments_loop. cbn [fst snd].
    unfold loop_after.
    destruct (loop_log now (due_payments now (snd r1)) (snd r1, 0, 0)%nat)
      as (new & T & L & F).
    pose proof (loop_counters now (due_payments now (snd r1)) (snd r1, 0, 0)%nat)
      as C.
    cbv zeta in C. destruct C as (C & _ & _).
    cbn [st_db st_processed st_failed fst snd] in T, L, C.
    eexists. eexists. exists new.
    split; [reflexivity|]. split; [exact C|]. split; [exact T|].
    split; [rewrite L; apply Nat.sub_0_r|].
    revert F. apply Forall_impl. intros t (q & Hq & S).
    exists q. split; [exact Hq|]. split; [apply Hskip; exact Hq|exact S].
  - split; [exact H1|].
    apply filter_In. split.
    + unfold payment_by_id in H1. apply find_some in H1. tauto.
    + apply filter_In in Hin. tauto.
Qed.

(** The salary that fell due at 100 + 30 days, processed twice 45 days after
    its creation: the first call pays it, the second finds nothing due and
    logs nothing. *)
Lemma second_call_skips_paid_payment_witness :
  let now := 100 + days 45 in
  let r1 := process_recurring_payments now db_salary in
  let r2 := process_recurring_payments now (snd r1) in
  due_payments now db_salary = [salary]
  /\ fst r1 = RecurringProcessed 1 0
  /\ payment_by_id (recurring_payments (snd r1)) 1 = Some (advanced salary)
  /\ due_payments now (snd r1) = []
  /\ fst r2 = RecurringProcessed 0 0
  /\ snd r2 = snd r1
  /\ payment_by_id (recurring_payments (snd r2)) 1 = Some (advanced salary).
Proof.
  intros now r1 r2.
  pose proof (second_call_skips_paid_payment now db_salary [] salary []
                ltac:(nodup_keys) eq_refl eq_refl) as H.
  cbv zeta in H. fold r1 in H. fold r2 in H.
  destruct H as [H _]. destruct (H eq_refl) as (_ & H1 & _ & _ & H2 & _).
  split; [reflexivity|]. split; [reflexivity|]. split; [exact H1|].
  split; [reflexivity|]. split; [reflexivity|]. split; [reflexivity|exact H2].
Defined.

(** C4 as stated fails for a payment that is more than one interval late.  The
    monthly salary due at 100 + 30 days is processed 61 days after its
    creation: the first call pays it and moves its date to 100 + 60 days, which
    is not after the current time, and the second call at the same time pays
    it again. *)
Lemma overdue_payment_paid_twice_counterexample :
  let now := 100 + days 61 in
  let r1 := process_recurring_payments now db_salary in
  let r2 := process_recurring_payments now (snd r1) in
  due_payments now db_salary = [salary]
  /\ fst r1 = RecurringProcessed 1 0
  /\ option_map RecurringPayment.next_payment_date
       (payment_by_id (recurring_payments (snd r1)) 1) = Some (100 + days 60)
  /\ (100 + days 60 <=? now) = true
  /\ fst r2 = RecurringProcessed 1 0
  /\ map Transaction.transaction_type (transactions (snd r2)) = ["salary"; "salary"]
  /\ option_map Account.balance (account_by_id (accounts (snd r2)) 1)
     = Some 248000%float
  /\ option_map Account.balance (account_by_id (accounts (snd r2)) 2)
     = Some 252000%float.
Proof. vm_compute. repeat split. Qed.

(** * Invariants of the reachable databases *)

Section Invariants.

Lemma next_id_fresh ids : ~ In (next_id ids) ids.
Proof.
  assert (H : forall i, In i ids -> i <= fold_right Z.max 0 ids).
  { induction ids as [|j ids IH]; simpl; intros i Hi; [contradiction|].
    destruct Hi as [->|Hi]; [lia|]. specialize (IH i Hi). lia. }
  intros Hin. apply H in Hin. unfold next_id in Hin. lia.
Qed.

Lemma NoDup_snoc {A} (l : list A) x : NoDup l -> ~ In x l -> NoDup (l ++ [x]).
Proof.
  intros ND Hx. apply NoDup_app; [exact ND|repeat constructor; simpl; tauto|].
  intros y Hy [<-|[]]. exact (Hx Hy).
Qed.

(** What the handlers other than the loop do to the tables of accounts and
    payments. *)
Lemma register_tables now generated data db :
  let db' := snd (register now generated data db) in
  recurring_payments db' = recurring_payments db
  /\ (accounts db' = accounts db
      \/ exists a, accounts db' = accounts db ++ [a]
                   /\ Account.id a = next_id (map Account.id (accounts db))
                   /\ Account.balance a = 250000%float).
Proof.
  unfold register.
  destruct (negb (truthy_str (reg_username data)) || negb (truthy_str (reg_pin data)));
    [simpl; auto|].
  destruct (negb (Nat.eqb (String.length (reg_pin data)) 4)
            || negb (isdigit (reg_pin data))); [simpl; auto|].
  destruct (user_by_name _ _); [simpl; auto|].
  destruct (account_by_number _ _); [simpl; auto|].
  simpl. split; [reflexivity|]. right. eexists. repeat split.
Qed.

Lemma transfer_money_tables now session data db :
  let db' := snd (transfer_money now session data db) in
  recurring_payments db' = recurring_payments db
  /\ (accounts db' = accounts db
      \/ exists A m,
           In A (accounts db)
           /\ (m <=? 0)%float = false
           /\ (Account.balance A <? m)%float = false
           /\ exists to_id,
                accounts db'
                = balance_add to_id m (balance_sub (Account.id A) m (accounts db))).
Proof.
  unfold transfer_money.
  destruct session as [uid|]; [|simpl; auto].
  destruct (negb (truthy_str (from_account_number data))
            || negb (truthy_str (to_account_number data))
            || negb (truthy (transfer_amount data))); [simpl; auto|].
  destruct (python_float (transfer_amount data)) as [m| |]; try (simpl; auto).
  destruct (m <=? 0)%float eqn:Hm; [simpl; auto|].
  destruct (account_of_user _ _ _) as [A|] eqn:HA; [|simpl; auto].
  destruct (account_by_number _ _) as [B|]; [|simpl; auto].
  destruct (Account.balance A <? m)%float eqn:Hlt; [simpl; auto|].
  simpl. split; [reflexivity|]. right. exists A, m.
  apply find_some in HA. repeat split; try tauto. eexists. reflexivity.
Qed.

Lemma charge_customer_tables now session data db :
  let db' := snd (charge_customer now session data db) in
  recurring_payments db' = recurring_payments db
  /\ (accounts db' = accounts db
      \/ exists A m,
           In A (accounts db)
           /\ (m <=? 0)%float = false
           /\ (Account.balance A <? m)%float = false
           /\ exists to_id,
                accounts db'
                = balance_add to_id m (balance_sub (Account.id A) m (accounts db))).
Proof.
  unfold charge_customer.
  destruct session as [uid|]; [|simpl; auto].
  destruct (negb _); [simpl; auto|].
  destruct (python_float (charge_amount data)) as [m| |]; try (simpl; auto).
  destruct (m <=? 0)%float eqn:Hm; [simpl; auto|].
  destruct (business_account_of_user _ _ _) as [B|]; [|simpl; auto].
  destruct (user_by_credentials _ _ _) as [u|]; [|simpl; auto].
  destruct (first_account_of _ _) as [A|] eqn:HA; [|simpl; auto].
  destruct (Account.balance A <? m)%float eqn:Hlt; [simpl; auto|].
  simpl. split; [reflexivity|]. right. exists A, m.
  apply find_some in HA. repeat split; try tauto. eexists. reflexivity.
Qed.

Lemma create_recurring_payment_tables now session data db :
  let db' := snd (create_recurring_payment now session data db) in
  accounts db' = accounts db
  /\ (recurring_payments db' = recurring_payments db
      \/ exists p, recurring_payments db' = recurring_payments db ++ [p]
                   /\ (RecurringPayment.amount p <=? 0)%float = false).
Proof.
  unfold create_recurring_payment.
  destruct session as [uid|]; [|simpl; auto].
  destruct (negb _); [simpl; auto|].
  destruct (python_float (recurring_amount data)) as [m| |]; try (simpl; auto).
  destruct (m <=? 0)%float eqn:Hm; [simpl; auto|].
  destruct (negb _); [simpl; auto|].
  destruct (business_account_of_user _ _ _) as [B|]; [|simpl; auto].
  destruct (account_by_number _ _) as [A|]; [|simpl; auto].
  simpl. split; [reflexivity|]. right. eexists. split; [reflexivity|exact Hm].
Qed.

Lemma cancel_recurring_payment_tables session payment_id db :
  let db' := snd (cancel_recurring_payment session payment_id db) in
  accounts db' = accounts db
  /\ (recurring_payments db' = recurring_payments db
      \/ exists i, recurring_payments db' = set_inactive i (recurring_payments db)).
Proof.
  unfold cancel_recurring_payment.
  destruct session as [uid|]; [|simpl; auto].
  destruct (payment_by_id _ _) as [p|]; [|simpl; auto].
  destruct (business_account_by_id _ _ _); [|simpl; auto].
  simpl. split; [reflexivity|]. right. eexists. reflexivity.
Qed.

End Invariants.

Section NeverNegative.

Lemma no_negative_balance_spec l :
  no_negative_balance l = true
  <-> forall a, In a l -> (Account.balance a <? 0)%float = false.
Proof.
  unfold no_negative_balance. rewrite forallb_forall.
  split; intros H a Ha; specialize (H a Ha).
  - apply negb_true_iff. exact H.
  - apply negb_true_iff. exact H.
Qed.

Lemma balance_sub_not_negative l A m :
  NoDup (map Account.id l) -> In A l ->
  (m <=? 0)%float = false -> (Account.balance A <? m)%float = false ->
  no_negative_balance l = true ->
  no_negative_balance (balance_sub (Account.id A) m l) = true.
Proof.
  intros ND HA Hm Hlt H. rewrite no_negative_balance_spec in *.
  intros x Hx. unfold balance_sub in Hx. apply in_map_iff in Hx.
  destruct Hx as (a & <- & Ha).
  destruct (Z.eqb_spec (Account.id a) (Account.id A)) as [E|E]; [|apply H; exact Ha].
  assert (a = A) as -> by (apply (NoDup_map_same Account.id l); assumption).
  simpl. apply sub_not_negative; auto.
Qed.

Lemma balance_add_not_negative l i m :
  (m <=? 0)%float = false ->
  no_negative_balance l = true ->
  no_negative_balance (balance_add i m l) = true.
Proof.
  intros Hm H. rewrite no_negative_balance_spec in *.
  intros x Hx. unfold balance_add in Hx. apply in_map_iff in Hx.
  destruct Hx as (a & <- & Ha).
  destruct (Account.id a =? i); [|apply H; exact Ha].
  simpl. apply add_not_negative; auto.
Qed.

Lemma amounts_checked_spec l :
  amounts_checked l = true
  <-> forall p, In p l -> (RecurringPayment.amount p <=? 0)%float = false.
Proof.
  unfold amounts_checked. rewrite forallb_forall.
  split; intros H p Hp; specialize (H p Hp); apply negb_true_iff; exact H.
Qed.

Lemma amounts_checked_map (f : RecurringPayment.t -> RecurringPayment.t) l :
  (forall p, RecurringPayment.amount (f p) = RecurringPayment.amount p) ->
  amounts_checked (map f l) = amounts_checked l.
Proof.
  intros Hf. unfold amounts_checked.
  induction l as [|p l IH]; simpl; [reflexivity|]. rewrite Hf, IH. reflexivity.
Qed.

Lemma amounts_checked_advance i d l :
  amounts_checked (advance_next_payment_date i d l) = amounts_checked l.
Proof.
  apply amounts_checked_map. intros p.
  destruct (RecurringPayment.id p =? i); reflexivity.
Qed.

Lemma amounts_checked_set_inactive i l :
  amounts_checked (set_inactive i l) = amounts_checked l.
Proof.
  apply amounts_checked_map. intros p.
  destruct (RecurringPayment.id p =? i); reflexivity.
Qed.

Variable now : datetime.

(** One iteration keeps the keys of the accounts and the stored amounts, and
    makes no balance negative when the amount had passed the check. *)
Lemma process_payment_keeps st p :
  map Account.id (accounts (st_db (process_payment now st p)))
  = map Account.id (accounts (st_db st))
  /\ amounts_checked (recurring_payments (st_db (process_payment now st p)))
     = amounts_checked (recurring_payments (st_db st))
  /\ (NoDup (map Account.id (accounts (st_db st))) ->
      (RecurringPayment.amount p <=? 0)%float = false ->
      no_negative_balance (accounts (st_db st)) = true ->
      no_negative_balance (accounts (st_db (process_payment now st p))) = true).
Proof.
  destruct st as [[db n] f]. unfold process_payment.
  cbn [st_db fst].
  destruct (account_by_id (accounts db) (RecurringPayment.from_account_id p))
    as [a|] eqn:Ea; [|cbn [st_db fst]; auto].
  destruct (RecurringPayment.amount p <=? Account.balance a)%float eqn:Hle;
    [|cbn [st_db fst]; auto].
  assert (Hsub : NoDup (map Account.id (accounts db)) ->
                 (RecurringPayment.amount p <=? 0)%float = false ->
                 no_negative_balance (accounts db) = true ->
                 no_negative_balance
                   (balance_sub (RecurringPayment.from_account_id p)
                      (RecurringPayment.amount p) (accounts db)) = true).
  { intros ND Hm H.
    rewrite <- (account_by_id_id _ _ _ Ea).
    apply balance_sub_not_negative; auto.
    - unfold account_by_id in Ea. apply find_some in Ea. tauto.
    - apply leb_ltb_false. exact Hle. }
  destruct (account_by_id (balance_sub _ _ _) _);
    cbn [st_db fst accounts recurring_payments with_accounts].
  - rewrite balance_add_ids, balance_sub_ids, amounts_checked_advance.
    repeat split. intros ND Hm H. apply balance_add_not_negative; auto.
  - rewrite balance_sub_ids. repeat split. exact Hsub.
Qed.

Lemma loop_keeps l st :
  let st' := fold_left (process_payment now) l st in
  map Account.id (accounts (st_db st')) = map Account.id (accounts (st_db st))
  /\ amounts_checked (recurring_payments (st_db st'))
     = amounts_checked (recurring_payments (st_db st))
  /\ (NoDup (map Account.id (accounts (st_db st))) ->
      (forall p, In p l -> (RecurringPayment.amount p <=? 0)%float = false) ->
      no_negative_balance (accounts (st_db st)) = true ->
      no_negative_balance (accounts (st_db st')) = true).
Proof.
  revert st. induction l as [|p l IH]; intros st; cbn zeta; simpl fold_left.
  - auto.
  - specialize (IH (process_payment now st p)). cbn zeta in IH.
    destruct IH as (IH1 & IH2 & IH3).
    destruct (process_payment_keeps st p) as (K1 & K2 & K3).
    rewrite IH1, IH2. repeat split; try assumption.
    intros ND Hm H. apply IH3.
    + rewrite K1. exact ND.
    + intros q Hq. apply Hm. right. exact Hq.
    + apply K3; auto. apply Hm. left. reflexivity.
Qed.

End NeverNegative.

Lemma process_recurring_payments_keeps now db :
  let db' := snd (process_recurring_payments now db) in
  map Account.id (accounts db') = map Account.id (accounts db)
  /\ amounts_checked (recurring_payments db')
     = amounts_checked (recurring_payments db)
  /\ (NoDup (map Account.id (accounts db)) ->
      amounts_checked (recurring_payments db) = true ->
      no_negative_balance (accounts db) = true ->
      no_negative_balance (accounts db') = true).
Proof.
  cbn zeta. rewrite process_recurring_payments_loop. cbn [snd].
  destruct (loop_keeps now (due_payments now db) (db, 0, 0)%nat) as (H1 & H2 & H3).
  repeat split; try assumption.
  intros ND Hc H. apply H3; auto.
  intros p Hp. apply filter_In in Hp. destruct Hp as [Hp _].
  revert p Hp. apply amounts_checked_spec. exact Hc.
Qed.

(** The commit stores what the handler wrote or nothing. *)
Lemma commit_cases stored result :
  (constraints_hold (snd result) = true /\ commit stored result = result)
  \/ (constraints_hold (snd result) = false
      /\ commit stored result = (ServerError, stored)).
Proof.
  unfold commit. destruct (constraints_hold (snd result)); [left|right]; auto.
Qed.

(** Every handler keeps the account keys distinct, and stores no recurring
    amount but one that passed its check. *)
Lemma route_invariant now c db :
  NoDup (map Account.id (accounts db)) ->
  amounts_checked (recurring_payments db) = true ->
  NoDup (map Account.id (accounts (snd (route now c db))))
  /\ amounts_checked (recurring_payments (snd (route now c db))) = true.
Proof.
  intros ND Hc.
  destruct c as [generated data|session data|session data|session data
                 |session payment_id|]; cbn [route].
  + destruct (register_tables now generated data db) as [Hp [Ha|(a & Ha & Hid & _)]];
      rewrite Hp, Ha; [auto|].
    split; [|exact Hc]. rewrite map_app. simpl.
    apply NoDup_snoc; [exact ND|]. rewrite Hid. apply next_id_fresh.
  + destruct (transfer_money_tables now session data db)
      as [Hp [Ha|(A & m & _ & _ & _ & t & Ha)]]; rewrite Hp, Ha; [auto|].
    rewrite balance_add_ids, balance_sub_ids. auto.
  + destruct (charge_customer_tables now session data db)
      as [Hp [Ha|(A & m & _ & _ & _ & t & Ha)]]; rewrite Hp, Ha; [auto|].
    rewrite balance_add_ids, balance_sub_ids. auto.
  + destruct (create_recurring_payment_tables now session data db)
      as [Ha [Hp|(p & Hp & Hm)]]; rewrite Hp, Ha; [auto|].
    split; [exact ND|]. unfold amounts_checked in *.
    rewrite forallb_app, Hc. simpl. rewrite Hm. reflexivity.
  + destruct (cancel_recurring_payment_tables session payment_id db)
      as [Ha [Hp|(i & Hp)]]; rewrite Hp, Ha; [auto|].
    rewrite amounts_checked_set_inactive. auto.
  + destruct (process_recurring_payments_keeps now db) as (H1 & H2 & _).
    rewrite H1, H2. auto.
Qed.

(** Every reachable database has distinct account keys, and every stored
    recurring amount has passed the check of its creation. *)
Lemma reachable_invariant db :
  reachable db ->
  NoDup (map Account.id (accounts db))
  /\ amounts_checked (recurring_payments db) = true.
Proof.
  induction 1 as [|db now c Hr [ND Hc]].
  - split; [constructor|reflexivity].
  - unfold handle.
    destruct (commit_cases db (route now c db)) as [[_ ->]|[_ ->]].
    + apply route_invariant; assumption.
    + split; assumption.
Qed.

(** The guards of the handlers: no handler writes a balance below zero. *)
Lemma route_not_negative now c db :
  NoDup (map Account.id (accounts db)) ->
  amounts_checked (recurring_payments db) = true ->
  no_negative_balance (accounts db) = true ->
  no_negative_balance (accounts (snd (route now c db))) = true.
Proof.
  intros ND Hc H.
  assert (Hmove : forall A m to_id,
             In A (accounts db) -> (m <=? 0)%float = false ->
             (Account.balance A <? m)%float = false ->
             no_negative_balance
               (balance_add to_id m (balance_sub (Account.id A) m (accounts db)))
             = true).
  { intros A m to_id HA Hm Hlt. apply balance_add_not_negative; [exact Hm|].
    apply balance_sub_not_negative; assumption. }
  destruct c as [generated data|session data|session data|session data
                 |session payment_id|]; cbn [route].
  - destruct (register_tables now generated data db)
      as [_ [Ha|(a & Ha & _ & Hb)]]; rewrite Ha; [exact H|].
    unfold no_negative_balance in *. rewrite forallb_app, H. simpl.
    rewrite Hb. reflexivity.
  - destruct (transfer_money_tables now session data db)
      as [_ [Ha|(A & m & HA & Hm & Hlt & t & Ha)]]; rewrite Ha; auto.
  - destruct (charge_customer_tables now session data db)
      as [_ [Ha|(A & m & HA & Hm & Hlt & t & Ha)]]; rewrite Ha; auto.
  - destruct (create_recurring_payment_tables now session data db) as [Ha _].
    rewrite Ha. exact H.
  - destruct (cancel_recurring_payment_tables session payment_id db) as [Ha _].
    rewrite Ha. exact H.
  - destruct (process_recurring_payments_keeps now db) as (_ & _ & H3). auto.
Qed.

(** Zero or more: not below zero, and a number. *)
Lemma non_negative_balances_spec l :
  non_negative_balances l = true
  <-> no_negative_balance l = true
      /\ forallb (fun a => not_null (Account.balance a)) l = true.
Proof.
  unfold non_negative_balances, no_negative_balance, not_null.
  rewrite !forallb_forall. split.
  - intros H. split; intros a Ha; specialize (H a Ha); apply negb_true_iff.
    + apply leb_ltb_false. exact H.
    + apply leb_not_nan. exact H.
  - intros [H1 H2] a Ha. specialize (H1 a Ha). specialize (H2 a Ha).
    apply negb_true_iff in H1. apply negb_true_iff in H2.
    apply not_negative_leb; assumption.
Qed.

(** C2: in a reachable database where every balance is zero or more, every
    request, whatever its arguments, stores a database where every balance is
    zero or more: a transfer, a charge, the processing of the recurring
    payments, and the three other requests that write.  The guards of the
    handlers keep a debit and a credit from going below zero, and the commit
    refuses a balance that is not a number. *)
Theorem ledger_keeps_balances_from_going_negative db :
  reachable db ->
  non_negative_balances (accounts db) = true ->
  forall now c,
    non_negative_balances (accounts (snd (handle now c db))) = true.
Proof.
  intros Hr H now c. destruct (reachable_invariant db Hr) as [ND Hc].
  unfold handle.
  destruct (commit_cases db (route now c db)) as [[Hok ->]|[_ ->]];
    [|exact H].
  apply non_negative_balances_spec. split.
  - apply route_not_negative; try assumption.
    apply non_negative_balances_spec in H. tauto.
  - unfold constraints_hold in Hok.
    apply andb_prop in Hok. destruct Hok as [Hok _].
    apply andb_prop in Hok. tauto.
Qed.

(** The databases that requests build satisfy the constraints of the
    columns. *)
Lemma reachable_constraints db : reachable db -> constraints_hold db = true.
Proof.
  induction 1 as [|db now c Hr IH]; [reflexivity|].
  unfold handle.
  destruct (commit_cases db (route now c db)) as [[Hok ->]|[_ ->]]; assumption.
Qed.

(** A database that requests have built, for the examples. *)
Lemma reachable_db_salary : reachable db_salary.
Proof.
  exact (reachable_step _ 100 (CreateRecurring (Some 1) salary_data)
          (reachable_step _ 7 (Register "1000000003" carol)
            (reachable_step _ 5 (Register "1000000002" bob)
              (reachable_step _ 0 (Register "1000000001" alice)
                 reachable_empty)))).
Qed.

(** After the salary is processed, and after bob sends 250000 to carol, every
    balance is zero or more; bob's transfer of a NaN is refused by the commit
    and stores nothing. *)
Lemma ledger_keeps_balances_from_going_negative_witness :
  non_negative_balances
    (accounts (snd (handle (100 + days 45) ProcessRecurring db_salary))) = true
  /\ non_negative_balances
       (accounts (snd (handle 200 (Transfer (Some 2)
                                     (transfer_of "1000000002" "1000000003" 250000))
                              db_salary))) = true
  /\ map Account.balance
       (accounts (snd (handle 200 (Transfer (Some 2)
                                     (transfer_of "1000000002" "1000000003" 250000))
                              db_salary)))
     = [250000; 0; 500000]%float
  /\ handle 200 (Transfer (Some 2) (transfer_of "1000000002" "1000000003" nan))
            db_salary
     = (ServerError, db_salary).
Proof.
  pose proof (ledger_keeps_balances_from_going_negative db_salary
                reachable_db_salary eq_refl) as H.
  split; [apply H|]. split; [apply H|]. split; reflexivity.
Defined.

(** * Debit and credit *)

(** The account of key [i] after a move: debited if it is the source, credited
    if it is the destination, both in turn if it is the two, and as it was
    otherwise. *)
Lemma account_by_id_moved from_id to_id m l i a :
  account_by_id l i = Some a ->
  account_by_id (moved from_id to_id m l) i
  = Some (Account.with_balance a
            (if i =? from_id
             then (if i =? to_id then (Account.balance a - m + m)%float
                   else (Account.balance a - m)%float)
             else (if i =? to_id then (Account.balance a + m)%float
                   else Account.balance a))).
Proof.
  intros Ha. unfold moved.
  rewrite account_by_id_balance_add, account_by_id_balance_sub, Ha.
  apply account_by_id_id in Ha. subst i. cbn [option_map].
  destruct a as [k number type b owner created].
  cbn [Account.id Account.balance Account.with_balance].
  destruct (k =? from_id); destruct (k =? to_id) eqn:E;
    cbn [Account.id Account.balance Account.with_balance];
    rewrite ?E; reflexivity.
Qed.

Lemma account_by_id_moved_none from_id to_id m l i :
  account_by_id l i = None -> account_by_id (moved from_id to_id m l) i = None.
Proof.
  intros Ha. unfold moved.
  rewrite account_by_id_balance_add, account_by_id_balance_sub, Ha. reflexivity.
Qed.

(** C9, as amended: a successful transfer, a successful charge and a paid
    salary each change the accounts by one debit and one credit of the amount
    of the transaction they log; the debit is the binary64 difference
    [balance - m] on the source, the credit the binary64 sum [balance + m] on
    the destination, and the account of every other key is as before. *)
Theorem money_moves_by_one_debit_and_one_credit now db :
  (forall session data t new_balance,
      fst (transfer_money now session data db) = TransferOk t new_balance ->
      accounts (snd (transfer_money now session data db))
      = moved (Transaction.from_account_id t) (Transaction.to_account_id t)
              (Transaction.amount t) (accounts db))
  /\ (forall session data t new_balance,
        fst (charge_customer now session data db) = ChargeOk t new_balance ->
        accounts (snd (charge_customer now session data db))
        = moved (Transaction.from_account_id t) (Transaction.to_account_id t)
                (Transaction.amount t) (accounts db))
  /\ (forall n f p,
        can_pay db p = true ->
        accounts (st_db (process_payment now (db, n, f) p))
        = moved (RecurringPayment.from_account_id p)
                (RecurringPayment.to_account_id p)
                (RecurringPayment.amount p) (accounts db))
  /\ (forall from_id to_id m i a,
        account_by_id (accounts db) i = Some a ->
        account_by_id (moved from_id to_id m (accounts db)) i
        = Some (Account.with_balance a
                  (if i =? from_id
                   then (if i =? to_id then (Account.balance a - m + m)%float
                         else (Account.balance a - m)%float)
                   else (if i =? to_id then (Account.balance a + m)%float
                         else Account.balance a)))).
Proof.
  split; [|split; [|split]].
  - intros session data t nb. unfold transfer_money.
    destruct session as [uid|]; [|discriminate].
    destruct (negb (truthy_str (from_account_number data))
              || negb (truthy_str (to_account_number data))
              || negb (truthy (transfer_amount data))); [discriminate|].
    destruct (python_float (transfer_amount data)) as [m| |]; try discriminate.
    destruct (m <=? 0)%float; [discriminate|].
    destruct (account_of_user _ _ _) as [A|]; [|discriminate].
    destruct (account_by_number _ _) as [B|]; [|discriminate].
    destruct (Account.balance A <? m)%float; [discriminate|].
    cbn [fst snd accounts]. intros H. injection H as <- _. reflexivity.
  - intros session data t nb. unfold charge_customer.
    destruct session as [uid|]; [|discriminate].
    destruct (negb _); [discriminate|].
    destruct (python_float (charge_amount data)) as [m| |]; try discriminate.
    destruct (m <=? 0)%float; [discriminate|].
    destruct (business_account_of_user _ _ _) as [B|]; [|discriminate].
    destruct (user_by_credentials _ _ _) as [u|]; [|discriminate].
    destruct (first_account_of _ _) as [A|]; [|discriminate].
    destruct (Account.balance A <? m)%float; [discriminate|].
    cbn [fst snd accounts]. intros H. injection H as <- _. reflexivity.
  - intros n f p Hpay. rewrite (process_payment_paid now db n f p Hpay).
    reflexivity.
  - intros from_id to_id m i a. apply account_by_id_moved.
Qed.

(** The transfer of 50000 from alice to bob debits the one and credits the
    other. *)
Lemma money_moves_by_one_debit_and_one_credit_witness :
  accounts (snd (transfer_money 10 (Some 1)
                   (transfer_of "1000000001" "1000000002" 50000) db_two))
  = moved 1 2 50000 (accounts db_two)
  /\ account_by_id (moved 1 2 50000 (accounts db_two)) 1
     = Some (Account.with_balance account_alice 200000).
Proof.
  destruct (money_moves_by_one_debit_and_one_credit 10 db_two) as (H1 & _ & _ & H4).
  split.
  - exact (H1 (Some 1) (transfer_of "1000000001" "1000000002" 50000)
              (Transaction.mk 1 1 2 50000 "" "transfer" 10) 200000%float eq_refl).
  - exact (H4 1 2 50000%float 1 account_alice eq_refl).
Defined.

(** C9 as stated fails, for the sums are sums of floats.  alice, who holds
    250000, sends 1e-11 to bob, who holds 100000: the transfer succeeds, her
    balance stays at 250000, where the difference rounds back, and his becomes
    100000.00000000001. *)
Lemma rounding_breaks_conservation_counterexample :
  let r := transfer_money 30 (Some 1)
             (transfer_of "1000000001" "1000000002" 1e-11) db_uneven in
  map Account.balance (accounts db_uneven)
  = [250000; 100000; 400000]%float
  /\ is_success (fst r) = true
  /\ map Account.balance (accounts (snd r))
     = [250000; 100000.00000000001; 400000]%float
  /\ (100000 <? 100000.00000000001)%float = true.
Proof. vm_compute. repeat split. Qed.

(** * A transfer from an account to itself *)

(** C10, as amended: a transfer that names one account, owned by the caller,
    as source and as destination, with an amount [m] such that
    [0 < m <= balance], succeeds; the account is debited and then credited, so
    that its balance becomes the binary64 value [(balance - m) + m], and every
    other account is as before; one transaction of type "transfer" is logged,
    whose source and destination are this account. *)
Theorem transfer_to_the_same_account now uid data db A m :
  NoDup (map Account.id (accounts db)) ->
  NoDup (map Account.account_number (accounts db)) ->
  truthy_str (from_account_number data) = true ->
  to_account_number data = from_account_number data ->
  python_float (transfer_amount data) = FloatOk m ->
  account_of_user (accounts db) (from_account_number data) uid = Some A ->
  (0 <? m)%float = true ->
  (m <=? Account.balance A)%float = true ->
  let r := transfer_money now (Some uid) data db in
  (exists t,
      fst r = TransferOk t (Account.balance A - m + m)%float
      /\ transactions (snd r) = transactions db ++ [t]
      /\ Transaction.transaction_type t = "transfer"
      /\ Transaction.from_account_id t = Account.id A
      /\ Transaction.to_account_id t = Account.id A
      /\ Transaction.amount t = m)
  /\ account_by_id (accounts (snd r)) (Account.id A)
     = Some (Account.with_balance A (Account.balance A - m + m)%float)
  /\ (forall i, i <> Account.id A ->
        account_by_id (accounts (snd r)) i = account_by_id (accounts db) i).
Proof.
  intros NDid ND Hfrom Hto Hm HA Hpos Hle r.
  assert (HinA : In A (accounts db))
    by (unfold account_of_user in HA; apply find_some in HA; tauto).
  assert (HB : account_by_number (accounts db) (to_account_number data) = Some A).
  { rewrite Hto. unfold account_of_user in HA. apply find_some in HA.
    destruct HA as [_ HfA]. apply andb_prop in HfA. destruct HfA as [HnA _].
    unfold account_by_number.
    destruct (find _ (accounts db)) as [B|] eqn:EB.
    - apply find_some in EB. destruct EB as [HinB HnB].
      apply String.eqb_eq in HnA, HnB. f_equal.
      apply (NoDup_map_same Account.account_number (accounts db)); congruence.
    - rewrite (find_none _ _ EB A HinA) in HnA. discriminate. }
  assert (Hto' : truthy_str (to_account_number data) = true)
    by (rewrite Hto; exact Hfrom).
  subst r.
  rewrite (transfer_money_success now uid data db A A m) by assumption.
  cbv zeta. cbn [fst snd accounts transactions]. rewrite Z.eqb_refl.
  split; [eexists; repeat split; reflexivity|].
  fold (moved (Account.id A) (Account.id A) m (accounts db)).
  split.
  - rewrite (account_by_id_moved _ _ _ _ _ _ (account_by_id_In _ _ NDid HinA)).
    rewrite Z.eqb_refl. reflexivity.
  - intros i Hi.
    destruct (account_by_id (accounts db) i) as [a|] eqn:E.
    + rewrite (account_by_id_moved _ _ _ _ _ _ E).
      apply Z.eqb_neq in Hi. rewrite Hi. destruct a; reflexivity.
    + apply account_by_id_moved_none. exact E.
Qed.

(** alice sends 50000 of her 250000 to herself: here the balance comes back
    to 250000. *)
Lemma transfer_to_the_same_account_witness :
  let r := transfer_money 10 (Some 1)
             (transfer_of "1000000001" "1000000001" 50000) db_two in
  account_by_id (accounts (snd r)) 1 = Some account_alice
  /\ map Transaction.to_account_id (transactions (snd r)) = [1].
Proof.
  intros r.
  pose proof (transfer_to_the_same_account 10 1
                (transfer_of "1000000001" "1000000001" 50000) db_two
                account_alice 50000 ltac:(nodup_keys) ltac:(nodup_keys)
                eq_refl eq_refl eq_refl eq_refl eq_refl eq_refl) as H.
  cbv zeta in H. fold r in H. destruct H as ((t & _ & Ht & _ & _ & Hto & _) & HA & _).
  split.
  - exact HA.
  - rewrite Ht. simpl. rewrite Hto. reflexivity.
Defined.

(** C10 as stated fails where the debit rounds.  alice holds 250000.1 and
    sends 33333.33 to herself: the transfer succeeds and her balance is
    250000.10000000003 afterwards, more than before. *)
Lemma transfer_to_self_rounds_counterexample :
  let r := transfer_money 30 (Some 1)
             (transfer_of "1000000001" "1000000001" 33333.33) db_dime in
  option_map Account.balance (account_by_id (accounts db_dime) 1)
  = Some 250000.1%float
  /\ is_success (fst r) = true
  /\ option_map Account.balance (account_by_id (accounts (snd r)) 1)
     = Some 250000.10000000003%float
  /\ (250000.1 <? 250000.10000000003)%float = true.
Proof. vm_compute. repeat split. Qed.

(** * What each handler writes *)

Section Effects.

(** [register] answers with an error and writes nothing, or inserts one user
    and one account. *)
Lemma register_effect now generated data db :
  (is_success (fst (register now generated data db)) = false
   /\ snd (register now generated data db) = db)
  \/ (truthy_str (reg_username data) = true
      /\ Nat.eqb (String.length (reg_pin data)) 4 = true
      /\ isdigit (reg_pin data) = true
      /\ user_by_name (users db) (reg_username data) = None
      /\ account_by_number (accounts db) generated = None
      /\ let user := User.mk (next_id (map User.id (users db)))
                             (reg_username data) (reg_pin data) now in
         let account := Account.mk (next_id (map Account.id (accounts db)))
                                   generated (reg_account_type data) 250000
                                   (User.id user) now in
         register now generated data db
         = (RegisterOk user account,
            mkDb (users db ++ [user]) (accounts db ++ [account])
                 (transactions db) (recurring_payments db))).
Proof.
  unfold register.
  destruct (truthy_str (reg_username data)) eqn:Hu; [|left; split; reflexivity].
  destruct (truthy_str (reg_pin data)) eqn:Hp; [|left; split; reflexivity].
  simpl.
  destruct (Nat.eqb (String.length (reg_pin data)) 4) eqn:Hl;
    [|left; split; reflexivity].
  destruct (isdigit (reg_pin data)) eqn:Hd; [|left; split; reflexivity].
  simpl.
  destruct (user_by_name _ _) eqn:Hn; [left; split; reflexivity|].
  destruct (account_by_number _ _) eqn:Ha; [left; split; reflexivity|].
  right. repeat split.
Qed.

(** [transfer_money] answers with an error and writes nothing, or moves the
    amount and logs one transfer. *)
Lemma transfer_money_effect now session data db :
  (is_success (fst (transfer_money now session data db)) = false
   /\ snd (transfer_money now session data db) = db)
  \/ exists uid A B m,
       session = Some uid
       /\ python_float (transfer_amount data) = FloatOk m
       /\ (m <=? 0)%float = false
       /\ account_of_user (accounts db) (from_account_number data) uid = Some A
       /\ account_by_number (accounts db) (to_account_number data) = Some B
       /\ (Account.balance A <? m)%float = false
       /\ let t := Transaction.mk (next_id (map Transaction.id (transactions db)))
                     (Account.id A) (Account.id B) m (transfer_description data)
                     "transfer" now in
          transfer_money now session data db
          = (TransferOk t (if Account.id A =? Account.id B
                           then (Account.balance A - m + m)%float
                           else (Account.balance A - m)%float),
             mkDb (users db) (moved (Account.id A) (Account.id B) m (accounts db))
                  (transactions db ++ [t]) (recurring_payments db)).
Proof.
  unfold transfer_money.
  destruct session as [uid|]; [|left; split; reflexivity].
  destruct (negb (truthy_str (from_account_number data))
            || negb (truthy_str (to_account_number data))
            || negb (truthy (transfer_amount data))); [left; split; reflexivity|].
  destruct (python_float (transfer_amount data)) as [m| |];
    try (left; split; reflexivity).
  destruct (m <=? 0)%float eqn:Hm; [left; split; reflexivity|].
  destruct (account_of_user _ _ _) as [A|] eqn:HA; [|left; split; reflexivity].
  destruct (account_by_number _ _) as [B|] eqn:HB; [|left; split; reflexivity].
  destruct (Account.balance A <? m)%float eqn:Hlt; [left; split; reflexivity|].
  right. exists uid, A, B, m. repeat split; assumption.
Qed.

(** [charge_customer] answers with an error and writes nothing, or moves the
    amount from the first account of the customer to the business account and
    logs one charge. *)
Lemma charge_customer_effect now session data db :
  (is_success (fst (charge_customer now session data db)) = false
   /\ snd (charge_customer now session data db) = db)
  \/ exists uid business customer customer_account m,
       session = Some uid
       /\ truthy_str (reason data) = true
       /\ python_float (charge_amount data) = FloatOk m
       /\ (m <=? 0)%float = false
       /\ business_account_of_user (accounts db)
            (charge_business_account_number data) uid = Some business
       /\ user_by_credentials (users db) (customer_username data)
            (customer_pin data) = Some customer
       /\ first_account_of (accounts db) (User.id customer) = Some customer_account
       /\ (Account.balance customer_account <? m)%float = false
       /\ let t := Transaction.mk (next_id (map Transaction.id (transactions db)))
                     (Account.id customer_account) (Account.id business) m
                     ("INVOICE: " ++ reason data
                      ++ (if truthy_str (charge_description data)
                          then " - " ++ charge_description data else ""))%string
                     "charge" now in
          charge_customer now session data db
          = (ChargeOk t
               (if Account.id customer_account =? Account.id business
                then (Account.balance customer_account - m + m)%float
                else (Account.balance business + m)%float),
             mkDb (users db)
                  (moved (Account.id customer_account) (Account.id business) m
                         (accounts db))
                  (transactions db ++ [t]) (recurring_payments db)).
Proof.
  unfold charge_customer.
  destruct session as [uid|]; [|left; split; reflexivity].
  destruct (truthy_str (charge_business_account_number data)
            && truthy_str (customer_username data)
            && truthy_str (customer_pin data)
            && truthy (charge_amount data)
            && truthy_str (reason data)) eqn:Hall; [|left; split; reflexivity].
  simpl.
  destruct (python_float (charge_amount data)) as [m| |];
    try (left; split; reflexivity).
  destruct (m <=? 0)%float eqn:Hm; [left; split; reflexivity|].
  destruct (business_account_of_user _ _ _) as [B|] eqn:HB;
    [|left; split; reflexivity].
  destruct (user_by_credentials _ _ _) as [u|] eqn:Hu; [|left; split; reflexivity].
  destruct (first_account_of _ _) as [A|] eqn:HA; [|left; split; reflexivity].
  destruct (Account.balance A <? m)%float eqn:Hlt; [left; split; reflexivity|].
  right. exists uid, B, u, A, m.
  apply andb_prop in Hall. destruct Hall as [_ Hr].
  repeat split; assumption.
Qed.

(** [create_recurring_payment] answers with an error and writes nothing, or
    inserts one active payment. *)
Lemma create_recurring_payment_effect now session data db :
  (is_success (fst (create_recurring_payment now session data db)) = false
   /\ snd (create_recurring_payment now session data db) = db)
  \/ exists uid business recipient m,
       let description :=
         match recurring_description data with
         | Some d => d | None => "Salary Payment" end in
       let frequency :=
         match recurring_frequency data with Some f => f | None => "monthly" end in
       session = Some uid
       /\ python_float (recurring_amount data) = FloatOk m
       /\ (m <=? 0)%float = false
       /\ valid_frequency frequency = true
       /\ business_account_of_user (accounts db)
            (business_account_number data) uid = Some business
       /\ account_by_number (accounts db) (recipient_account_number data)
          = Some recipient
       /\ let p := RecurringPayment.mk
                     (next_id (map RecurringPayment.id (recurring_payments db)))
                     (Account.id business) (Account.id recipient) m description
                     frequency true (now + frequency_delta frequency) now in
          create_recurring_payment now session data db
          = (RecurringCreated p,
             with_recurring_payments db (recurring_payments db ++ [p])).
Proof.
  unfold create_recurring_payment.
  destruct session as [uid|]; [|left; split; reflexivity].
  destruct (negb _); [left; split; reflexivity|].
  destruct (python_float (recurring_amount data)) as [m| |];
    try (left; split; reflexivity).
  destruct (m <=? 0)%float eqn:Hm; [left; split; reflexivity|].
  fold (valid_frequency
          match recurring_frequency data with Some f => f | None => "monthly" end).
  destruct (valid_frequency _) eqn:Hf; [|left; split; reflexivity].
  simpl negb. cbv iota.
  destruct (business_account_of_user _ _ _) as [B|] eqn:HB;
    [|left; split; reflexivity].
  destruct (account_by_number _ _) as [R|] eqn:HR; [|left; split; reflexivity].
  right. exists uid, B, R, m. cbv zeta.
  repeat split; try assumption.
  unfold frequency_delta. unfold valid_frequency in Hf.
  destruct (String.eqb _ "weekly"); [reflexivity|].
  destruct (String.eqb _ "monthly"); [reflexivity|].
  destruct (String.eqb _ "yearly"); [reflexivity|].
  discriminate Hf.
Qed.

(** [cancel_recurring_payment] answers with an error and writes nothing, or
    clears the flag of the payment. *)
Lemma cancel_recurring_payment_effect session payment_id db :
  (is_success (fst (cancel_recurring_payment session payment_id db)) = false
   /\ snd (cancel_recurring_payment session payment_id db) = db)
  \/ exists uid p business,
       session = Some uid
       /\ payment_by_id (recurring_payments db) payment_id = Some p
       /\ business_account_by_id (accounts db)
            (RecurringPayment.from_account_id p) uid = Some business
       /\ cancel_recurring_payment session payment_id db
          = (RecurringCancelled,
             with_recurring_payments db
               (set_inactive payment_id (recurring_payments db))).
Proof.
  unfold cancel_recurring_payment.
  destruct session as [uid|]; [|left; split; reflexivity].
  destruct (payment_by_id _ _) as [p|] eqn:Hp; [|left; split; reflexivity].
  destruct (business_account_by_id _ _ _) as [B|] eqn:HB;
    [|left; split; reflexivity].
  right. exists uid, p, B. rewrite (payment_by_id_id _ _ _ Hp).
  repeat split. exact HB.
Qed.

End Effects.

(** * Well-formed databases *)

Section WellFormed.

Lemma map_through {A B} (key : A -> A) (g : A -> B) l l' :
  (forall a, g (key a) = g a) ->
  map key l' = map key l -> map g l' = map g l.
Proof.
  intros Hg H.
  rewrite <- (map_ext (fun a => g (key a)) g Hg l).
  rewrite <- (map_ext (fun a => g (key a)) g Hg l').
  rewrite <- !(map_map key g). rewrite H. reflexivity.
Qed.

Lemma forallb_through {A} (key : A -> A) (g : A -> bool) l l' :
  (forall a, g (key a) = g a) ->
  map key l' = map key l -> forallb g l' = forallb g l.
Proof.
  intros Hg H.
  assert (E : forall k, forallb g k = forallb (fun b => b) (map g k)).
  { induction k as [|a k IH]; simpl; [reflexivity|]. rewrite IH. reflexivity. }
  rewrite (E l), (E l'). rewrite (map_through key g l l' Hg H). reflexivity.
Qed.

Lemma balance_sub_keys i m l :
  map account_key (balance_sub i m l) = map account_key l.
Proof.
  unfold balance_sub. rewrite map_map. apply map_ext.
  intros a. destruct (Account.id a =? i); reflexivity.
Qed.

Lemma balance_add_keys i m l :
  map account_key (balance_add i m l) = map account_key l.
Proof.
  unfold balance_add. rewrite map_map. apply map_ext.
  intros a. destruct (Account.id a =? i); reflexivity.
Qed.

Lemma moved_keys from_id to_id m l :
  map account_key (moved from_id to_id m l) = map account_key l.
Proof. unfold moved. rewrite balance_add_keys, balance_sub_keys. reflexivity. Qed.

Lemma set_inactive_terms i l :
  map payment_terms (set_inactive i l) = map payment_terms l.
Proof.
  unfold set_inactive. rewrite map_map. apply map_ext.
  intros p. destruct (RecurringPayment.id p =? i); reflexivity.
Qed.

Lemma advance_terms i d l :
  map payment_terms (advance_next_payment_date i d l) = map payment_terms l.
Proof.
  unfold advance_next_payment_date. rewrite map_map. apply map_ext.
  intros p. destruct (RecurringPayment.id p =? i); reflexivity.
Qed.

(** Writing balances, flags and dates keeps a database well formed. *)
Lemma well_formed_same_rows db db' :
  well_formed db ->
  users db' = users db ->
  map account_key (accounts db') = map account_key (accounts db) ->
  transactions db' = transactions db ->
  map payment_terms (recurring_payments db')
  = map payment_terms (recurring_payments db) ->
  well_formed db'.
Proof.
  intros [] Hu Ha Ht Hp.
  assert (Hid : map Account.id (accounts db') = map Account.id (accounts db))
    by (apply (map_through account_key); [reflexivity|exact Ha]).
  constructor; rewrite ?Hu, ?Ht, ?Hid; try assumption.
  - rewrite (map_through account_key Account.account_number _ _
               (fun _ => eq_refl) Ha). assumption.
  - rewrite (map_through account_key Account.user_id _ _ (fun _ => eq_refl) Ha).
    assumption.
  - rewrite (map_through payment_terms RecurringPayment.id _ _
               (fun _ => eq_refl) Hp). assumption.
  - rewrite (map_through payment_terms
               (fun p => (RecurringPayment.from_account_id p, "business")) _ _
               (fun _ => eq_refl) Hp).
    rewrite (map_through account_key
               (fun a => (Account.id a, Account.account_type a)) _ _
               (fun _ => eq_refl) Ha).
    assumption.
  - rewrite (map_through payment_terms RecurringPayment.to_account_id _ _
               (fun _ => eq_refl) Hp). assumption.
  - rewrite (forallb_through payment_terms
               (fun p => valid_frequency (RecurringPayment.frequency p)) _ _
               (fun _ => eq_refl) Hp). assumption.
Qed.

Lemma NoDup_map_snoc {A B} (f : A -> B) l x :
  NoDup (map f l) -> ~ In (f x) (map f l) -> NoDup (map f (l ++ [x])).
Proof. intros. rewrite map_app. simpl. apply NoDup_snoc; assumption. Qed.

Lemma incl_map_snoc {A B} (f : A -> B) l x k :
  incl (map f l) k -> In (f x) k -> incl (map f (l ++ [x])) k.
Proof.
  intros H Hx. rewrite map_app. apply incl_app; [exact H|].
  intros y [<-|[]]. exact Hx.
Qed.

(** Logging a transaction between two accounts that exist. *)
Lemma well_formed_log db t :
  well_formed db ->
  Transaction.id t = next_id (map Transaction.id (transactions db)) ->
  In (Transaction.from_account_id t) (map Account.id (accounts db)) ->
  In (Transaction.to_account_id t) (map Account.id (accounts db)) ->
  well_formed (mkDb (users db) (accounts db) (transactions db ++ [t])
                    (recurring_payments db)).
Proof.
  intros [] Hid Hfrom Hto. constructor; cbn [users accounts transactions
    recurring_payments]; try assumption.
  - apply NoDup_map_snoc; [assumption|]. rewrite Hid. apply next_id_fresh.
  - apply incl_map_snoc; assumption.
  - apply incl_map_snoc; assumption.
Qed.

Lemma find_some_key {A B} (f : A -> bool) (g : A -> B) l a :
  find f l = Some a -> In (g a) (map g l).
Proof. intros H. apply find_some in H. apply in_map. tauto. Qed.

Lemma account_by_id_present l i :
  In i (map Account.id l) -> exists a, account_by_id l i = Some a.
Proof.
  intros H. apply in_map_iff in H. destruct H as (a & Hid & Ha).
  unfold account_by_id.
  destruct (find (fun a => Account.id a =? i) l) as [b|] eqn:E; [eauto|].
  apply (find_none _ _ E) in Ha. apply Z.eqb_neq in Ha. contradiction.
Qed.

End WellFormed.

Section Reachable.

Lemma find_none_key {A} (f : A -> bool) (g : A -> string) l s :
  (forall a, f a = String.eqb (g a) s) ->
  find f l = None -> ~ In s (map g l).
Proof.
  intros Hf H Hin. apply in_map_iff in Hin. destruct Hin as (a & <- & Ha).
  apply (find_none _ _ H) in Ha. rewrite Hf, String.eqb_refl in Ha. discriminate.
Qed.

Lemma well_formed_register now generated data db :
  well_formed db -> well_formed (snd (register now generated data db)).
Proof.
  intros W.
  destruct (register_effect now generated data db)
    as [[_ ->]|(Hu & Hl & Hd & Hn & Ha & E)]; [exact W|].
  cbv zeta in E. rewrite E. cbn [snd]. destruct W.
  constructor; cbn [users accounts transactions recurring_payments];
    try assumption.
  - apply NoDup_map_snoc; [assumption|apply next_id_fresh].
  - apply NoDup_map_snoc; [assumption|].
    apply (find_none_key _ User.username _ _ (fun _ => eq_refl) Hn).
  - rewrite forallb_app, wf_credentials0. unfold valid_credentials. simpl.
    rewrite Hu, Hl, Hd. reflexivity.
  - apply NoDup_map_snoc; [assumption|apply next_id_fresh].
  - apply NoDup_map_snoc; [assumption|].
    apply (find_none_key _ Account.account_number _ _ (fun _ => eq_refl) Ha).
  - apply incl_map_snoc.
    + rewrite map_app. apply incl_appl. assumption.
    + rewrite map_app. apply in_or_app. right. left. reflexivity.
  - rewrite map_app. apply incl_appl. assumption.
  - rewrite map_app. apply incl_appl. assumption.
  - rewrite map_app. apply incl_appl. assumption.
  - rewrite map_app. apply incl_appl. assumption.
Qed.

(** A move of money and its entry in the log. *)
Lemma well_formed_moved db from_id to_id m t :
  well_formed db ->
  Transaction.id t = next_id (map Transaction.id (transactions db)) ->
  Transaction.from_account_id t = from_id ->
  Transaction.to_account_id t = to_id ->
  In from_id (map Account.id (accounts db)) ->
  In to_id (map Account.id (accounts db)) ->
  forall payments,
    map payment_terms payments = map payment_terms (recurring_payments db) ->
    well_formed (mkDb (users db) (moved from_id to_id m (accounts db))
                      (transactions db ++ [t]) payments).
Proof.
  intros W Hid Hfrom Hto Hf Ht payments Hp.
  assert (W' : well_formed (mkDb (users db) (moved from_id to_id m (accounts db))
                                 (transactions db) payments)).
  { apply (well_formed_same_rows db); try reflexivity; try assumption.
    apply moved_keys. }
  assert (Hids : map Account.id (moved from_id to_id m (accounts db))
                 = map Account.id (accounts db))
    by (apply (map_through account_key); [reflexivity|apply moved_keys]).
  apply (well_formed_log _ t) in W'; cbn [users accounts transactions
    recurring_payments] in *; try assumption; rewrite Hids; congruence.
Qed.

Lemma well_formed_transfer_money now session data db :
  well_formed db -> well_formed (snd (transfer_money now session data db)).
Proof.
  intros W.
  destruct (transfer_money_effect now session data db)
    as [[_ ->]|(uid & A & B & m & _ & _ & _ & HA & HB & _ & E)]; [exact W|].
  cbv zeta in E. rewrite E. cbn [snd].
  apply well_formed_moved; try reflexivity; try assumption.
  - apply (find_some_key _ Account.id _ _ HA).
  - apply (find_some_key _ Account.id _ _ HB).
Qed.

Lemma well_formed_charge_customer now session data db :
  well_formed db -> well_formed (snd (charge_customer now session data db)).
Proof.
  intros W.
  destruct (charge_customer_effect now session data db)
    as [[_ ->]|(uid & B & u & A & m & _ & _ & _ & _ & HB & _ & HA & _ & E)];
    [exact W|].
  cbv zeta in E. rewrite E. cbn [snd].
  apply well_formed_moved; try reflexivity; try assumption.
  - apply (find_some_key _ Account.id _ _ HA).
  - apply (find_some_key _ Account.id _ _ HB).
Qed.

Lemma well_formed_create_recurring_payment now session data db :
  well_formed db ->
  well_formed (snd (create_recurring_payment now session data db)).
Proof.
  intros W.
  destruct (create_recurring_payment_effect now session data db)
    as [[_ ->]|(uid & B & R & m & H)]; [exact W|].
  cbv zeta in H. destruct H as (_ & _ & _ & Hf & HB & HR & E).
  rewrite E. cbn [snd]. destruct W.
  constructor; cbn [users accounts transactions recurring_payments
    with_recurring_payments]; try assumption.
  - apply NoDup_map_snoc; [assumption|apply next_id_fresh].
  - apply incl_map_snoc; [assumption|]. cbn [RecurringPayment.from_account_id].
    unfold business_account_of_user in HB. apply find_some in HB.
    destruct HB as [HinB HB]. apply andb_prop in HB. destruct HB as [_ HB].
    apply String.eqb_eq in HB. rewrite <- HB.
    apply (in_map (fun a => (Account.id a, Account.account_type a))). exact HinB.
  - apply incl_map_snoc; [assumption|].
    apply (find_some_key _ Account.id _ _ HR).
  - rewrite forallb_app, wf_frequencies0. simpl. rewrite Hf. reflexivity.
Qed.

Lemma well_formed_cancel_recurring_payment session payment_id db :
  well_formed db ->
  well_formed (snd (cancel_recurring_payment session payment_id db)).
Proof.
  intros W.
  destruct (cancel_recurring_payment_effect session payment_id db)
    as [[_ ->]|(uid & p & B & _ & _ & _ & E)]; [exact W|].
  rewrite E. cbn [snd].
  apply (well_formed_same_rows db); try reflexivity; try assumption.
  apply set_inactive_terms.
Qed.

(** An iteration on a payment whose two accounts exist pays it or writes
    nothing. *)
Lemma process_payment_linked now db n f p :
  In (RecurringPayment.from_account_id p) (map Account.id (accounts db)) ->
  In (RecurringPayment.to_account_id p) (map Account.id (accounts db)) ->
  (can_pay db p = true
   /\ process_payment now (db, n, f) p = (paid now db p, S n, f))
  \/ (can_pay db p = false
      /\ process_payment now (db, n, f) p = (db, n, S f)).
Proof.
  intros Hfrom Hto.
  destruct (account_by_id_present _ _ Hfrom) as [a Ha].
  destruct (account_by_id_present _ _ Hto) as [b Hb].
  destruct (can_pay db p) eqn:E.
  - left. split; [reflexivity|]. apply process_payment_paid. exact E.
  - right. split; [reflexivity|].
    unfold can_pay in E. rewrite Ha, Hb in E.
    unfold process_payment. rewrite Ha, E. reflexivity.
Qed.

Lemma well_formed_paid now db p :
  well_formed db ->
  In (RecurringPayment.from_account_id p) (map Account.id (accounts db)) ->
  In (RecurringPayment.to_account_id p) (map Account.id (accounts db)) ->
  well_formed (paid now db p).
Proof.
  intros W Hfrom Hto. unfold paid.
  apply well_formed_moved; try reflexivity; try assumption.
  apply advance_terms.
Qed.

Lemma paid_account_ids now db p :
  map Account.id (accounts (paid now db p)) = map Account.id (accounts db).
Proof.
  unfold paid. cbn [accounts]. apply (map_through account_key); [reflexivity|].
  apply moved_keys.
Qed.

Lemma well_formed_loop now l db n f :
  well_formed db ->
  (forall p, In p l ->
     In (RecurringPayment.from_account_id p) (map Account.id (accounts db))
     /\ In (RecurringPayment.to_account_id p) (map Account.id (accounts db))) ->
  well_formed (st_db (fold_left (process_payment now) l (db, n, f))).
Proof.
  revert db n f. induction l as [|p l IH]; intros db n f W H; cbn [fold_left].
  - exact W.
  - destruct (H p (or_introl eq_refl)) as [Hfrom Hto].
    destruct (process_payment_linked now db n f p Hfrom Hto)
      as [[_ ->]|[_ ->]].
    + apply IH.
      * apply well_formed_paid; assumption.
      * intros q Hq. rewrite paid_account_ids. apply H. right. exact Hq.
    + apply IH; [exact W|]. intros q Hq. apply H. right. exact Hq.
Qed.

Lemma payment_accounts_present db p :
  well_formed db -> In p (recurring_payments db) ->
  In (RecurringPayment.from_account_id p) (map Account.id (accounts db))
  /\ In (RecurringPayment.to_account_id p) (map Account.id (accounts db)).
Proof.
  intros W Hp. split.
  - assert (H : In (RecurringPayment.from_account_id p, "business")
                   (map (fun a => (Account.id a, Account.account_type a))
                        (accounts db))).
    { apply (wf_payment_from db W).
      apply (in_map (fun p => (RecurringPayment.from_account_id p, "business"))).
      exact Hp. }
    apply in_map_iff in H. destruct H as (a & E & Ha). injection E as <- _.
    apply in_map. exact Ha.
  - apply (wf_payment_to db W). apply in_map. exact Hp.
Qed.

Lemma well_formed_process_recurring_payments now db :
  well_formed db -> well_formed (snd (process_recurring_payments now db)).
Proof.
  intros W. rewrite process_recurring_payments_loop. cbn [snd].
  unfold loop_after. apply well_formed_loop; [exact W|].
  intros p Hp. apply filter_In in Hp. apply payment_accounts_present; tauto.
Qed.

Lemma well_formed_route now c db :
  well_formed db -> well_formed (snd (route now c db)).
Proof.
  intros W. destruct c; cbn [route].
  - apply well_formed_register; exact W.
  - apply well_formed_transfer_money; exact W.
  - apply well_formed_charge_customer; exact W.
  - apply well_formed_create_recurring_payment; exact W.
  - apply well_formed_cancel_recurring_payment; exact W.
  - apply well_formed_process_recurring_payments; exact W.
Qed.

(** Every database that requests build is well formed. *)
Lemma reachable_well_formed db : reachable db -> well_formed db.
Proof.
  induction 1 as [|db now c Hr W].
  - constructor; simpl; try constructor; try reflexivity;
      intros x [].
  - unfold handle.
    destruct (commit_cases db (route now c db)) as [[_ ->]|[_ ->]];
      [apply well_formed_route|]; exact W.
Qed.

End Reachable.

(** * What holds of every reachable database *)

Lemma user_by_id_present l i :
  In i (map User.id l) -> exists u, user_by_id l i = Some u.
Proof.
  intros H. apply in_map_iff in H. destruct H as (u & Hid & Hu).
  unfold user_by_id.
  destruct (find (fun u => User.id u =? i) l) as [v|] eqn:E; [eauto|].
  apply (find_none _ _ E) in Hu. apply Z.eqb_neq in Hu. contradiction.
Qed.

(** X1: in every database that requests build, the primary keys of the four
    tables, the usernames and the account numbers are without repetition. *)
Theorem reachable_keys_are_unique db :
  reachable db ->
  NoDup (map User.id (users db))
  /\ NoDup (map User.username (users db))
  /\ NoDup (map Account.id (accounts db))
  /\ NoDup (map Account.account_number (accounts db))
  /\ NoDup (map Transaction.id (transactions db))
  /\ NoDup (map RecurringPayment.id (recurring_payments db)).
Proof.
  intros Hr. destruct (reachable_well_formed db Hr). repeat split; assumption.
Qed.

Lemma reachable_keys_are_unique_witness :
  NoDup (map User.username (users db_salary))
  /\ NoDup (map Account.account_number (accounts db_salary)).
Proof.
  destruct (reachable_keys_are_unique db_salary reachable_db_salary)
    as (_ & H1 & _ & H2 & _).
  split; assumption.
Defined.

(** X2: in every database that requests build, every reference finds its row:
    the owner of every account is a user, the two accounts of every
    transaction exist, and every recurring payment has an existing business
    account as its source, an existing account as its destination and one of
    the three frequencies. *)
Theorem reachable_references_resolve db :
  reachable db ->
  (forall a, In a (accounts db) ->
     exists u, user_by_id (users db) (Account.user_id a) = Some u)
  /\ (forall t, In t (transactions db) ->
        exists a b,
          account_by_id (accounts db) (Transaction.from_account_id t) = Some a
          /\ account_by_id (accounts db) (Transaction.to_account_id t) = Some b)
  /\ (forall p, In p (recurring_payments db) ->
        exists a b,
          account_by_id (accounts db) (RecurringPayment.from_account_id p) = Some a
          /\ Account.account_type a = "business"
          /\ account_by_id (accounts db) (RecurringPayment.to_account_id p) = Some b
          /\ (RecurringPayment.frequency p = "weekly"
              \/ RecurringPayment.frequency p = "monthly"
              \/ RecurringPayment.frequency p = "yearly")).
Proof.
  intros Hr. pose proof (reachable_well_formed db Hr) as W.
  split; [|split].
  - intros a Ha. apply user_by_id_present. apply (wf_owners db W).
    apply in_map. exact Ha.
  - intros t Ht.
    destruct (account_by_id_present (accounts db) (Transaction.from_account_id t))
      as [a Ea]; [apply (wf_transaction_from db W); apply in_map; exact Ht|].
    destruct (account_by_id_present (accounts db) (Transaction.to_account_id t))
      as [b Eb]; [apply (wf_transaction_to db W); apply in_map; exact Ht|].
    eauto.
  - intros p Hp.
    assert (H : In (RecurringPayment.from_account_id p, "business")
                   (map (fun a => (Account.id a, Account.account_type a))
                        (accounts db))).
    { apply (wf_payment_from db W).
      apply (in_map (fun p => (RecurringPayment.from_account_id p, "business"))).
      exact Hp. }
    apply in_map_iff in H. destruct H as (a0 & E & Ha0).
    injection E as Eid Ety.
    assert (Ea : account_by_id (accounts db) (RecurringPayment.from_account_id p)
                 = Some a0).
    { rewrite <- Eid. apply account_by_id_In; [apply (wf_account_ids db W)|exact Ha0]. }
    destruct (payment_accounts_present db p W Hp) as [_ Hto].
    destruct (account_by_id_present _ _ Hto) as [b Eb].
    exists a0, b. repeat split; try assumption.
    pose proof (wf_frequencies db W) as Hf.
    rewrite forallb_forall in Hf. specialize (Hf p Hp).
    unfold valid_frequency in Hf.
    apply orb_prop in Hf. destruct Hf as [Hf|Hf];
      [apply orb_prop in Hf; destruct Hf as [Hf|Hf]|];
      apply String.eqb_eq in Hf; auto.
Qed.

Lemma reachable_references_resolve_witness :
  exists a b,
    account_by_id (accounts db_salary) (RecurringPayment.from_account_id salary)
    = Some a
    /\ Account.account_type a = "business"
    /\ account_by_id (accounts db_salary) (RecurringPayment.to_account_id salary)
       = Some b.
Proof.
  destruct (reachable_references_resolve db_salary reachable_db_salary)
    as (_ & _ & H).
  destruct (H salary (or_introl eq_refl)) as (a & b & Ha & Hty & Hb & _).
  exists a, b. repeat split; assumption.
Defined.

(** * Rows stay *)

Section Frame.

Variable now : datetime.

(** An iteration of the loop keeps the users, the rows of the accounts and of
    the payments, and the log it has, to which it may add. *)
Lemma process_payment_frame st p :
  let st' := process_payment now st p in
  users (st_db st') = users (st_db st)
  /\ map account_key (accounts (st_db st')) = map account_key (accounts (st_db st))
  /\ map payment_terms (recurring_payments (st_db st'))
     = map payment_terms (recurring_payments (st_db st))
  /\ exists new,
       transactions (st_db st') = transactions (st_db st) ++ new
       /\ List.length new = (st_processed st' - st_processed st)%nat
       /\ Forall (fun t => Transaction.transaction_type t = "salary") new.
Proof.
  cbv zeta. destruct st as [[db n] f]. unfold process_payment.
  assert (Same : forall accs',
             map account_key accs' = map account_key (accounts db) ->
             users (st_db (with_accounts db accs', n, S f)) = users (st_db (db, n, f))
             /\ map account_key (accounts (st_db (with_accounts db accs', n, S f)))
                = map account_key (accounts (st_db (db, n, f)))
             /\ map payment_terms
                  (recurring_payments (st_db (with_accounts db accs', n, S f)))
                = map payment_terms (recurring_payments (st_db (db, n, f)))
             /\ exists new,
                  transactions (st_db (with_accounts db accs', n, S f))
                  = transactions (st_db (db, n, f)) ++ new
                  /\ List.length new
                     = (st_processed (with_accounts db accs', n, S f)
                        - st_processed (db, n, f))%nat
                  /\ Forall (fun t => Transaction.transaction_type t = "salary")
                            new).
  { intros accs' K.
    cbn [st_db st_processed fst snd with_accounts users accounts transactions
         recurring_payments].
    repeat split; [exact K|].
    exists []. rewrite app_nil_r. repeat split; [cbn [List.length]; lia|constructor]. }
  assert (Same0 := Same (accounts db) eq_refl).
  replace (with_accounts db (accounts db)) with db in Same0 by (destruct db; reflexivity).
  destruct (account_by_id (accounts db) (RecurringPayment.from_account_id p))
    as [a|]; [|exact Same0].
  destruct (RecurringPayment.amount p <=? Account.balance a)%float; [|exact Same0].
  destruct (account_by_id (balance_sub _ _ _) _);
    [|apply Same; apply balance_sub_keys].
  cbn [st_db st_processed fst snd users accounts transactions recurring_payments].
  split; [reflexivity|]. split; [apply moved_keys|].
  split; [apply advance_terms|].
  eexists. split; [reflexivity|]. split.
  - cbn [List.length]. lia.
  - repeat constructor.
Qed.

Lemma loop_frame l st :
  let st' := fold_left (process_payment now) l st in
  users (st_db st') = users (st_db st)
  /\ map account_key (accounts (st_db st')) = map account_key (accounts (st_db st))
  /\ map payment_terms (recurring_payments (st_db st'))
     = map payment_terms (recurring_payments (st_db st))
  /\ exists new,
       transactions (st_db st') = transactions (st_db st) ++ new
       /\ List.length new = (st_processed st' - st_processed st)%nat
       /\ Forall (fun t => Transaction.transaction_type t = "salary") new.
Proof.
  revert st. induction l as [|p l IH]; intros st; cbv zeta; cbn [fold_left].
  - repeat split. exists []. rewrite app_nil_r.
    repeat split; [cbn [List.length]; lia|constructor].
  - specialize (IH (process_payment now st p)). cbv zeta in IH.
    destruct IH as (U & A & P & new & T & L & F).
    destruct (process_payment_frame st p) as (U' & A' & P' & new' & T' & L' & F').
    rewrite U, A, P, T, T'. repeat split; try assumption.
    exists (new' ++ new). rewrite app_assoc. split; [reflexivity|]. split.
    + rewrite length_app, L, L'.
      pose proof (loop_counters now l (process_payment now st p)) as C.
      cbv zeta in C.
      assert (st_processed st <= st_processed (process_payment now st p))%nat.
      { destruct (process_payment_cases now st p) as [[_ ->]|[_ [accs' ->]]];
          cbn [st_processed fst snd]; lia. }
      lia.
    + apply Forall_app. split; assumption.
Qed.

End Frame.

(** What a request keeps: it may add users, accounts, transactions and
    payments at the end of their tables, and leaves the rows that are there in
    place, the accounts but for their balance, and the payments but for their
    flag and their date.  Users and accounts come in pairs. *)
Lemma handle_frame now c db :
  exists new_users new_accounts new_transactions new_payments,
    users (snd (handle now c db)) = users db ++ new_users
    /\ map account_key (accounts (snd (handle now c db)))
       = map account_key (accounts db ++ new_accounts)
    /\ transactions (snd (handle now c db)) = transactions db ++ new_transactions
    /\ map payment_terms (recurring_payments (snd (handle now c db)))
       = map payment_terms (recurring_payments db ++ new_payments)
    /\ map Account.user_id new_accounts = map User.id new_users.
Proof.
  assert (Same : exists new_users new_accounts new_transactions new_payments,
             users db = users db ++ new_users
             /\ map account_key (accounts db)
                = map account_key (accounts db ++ new_accounts)
             /\ transactions db = transactions db ++ new_transactions
             /\ map payment_terms (recurring_payments db)
                = map payment_terms (recurring_payments db ++ new_payments)
             /\ map Account.user_id new_accounts = map User.id new_users).
  { exists [], [], [], []. rewrite !app_nil_r. repeat split. }
  unfold handle.
  destruct (commit_cases db (route now c db)) as [[_ ->]|[_ ->]];
    [|exact Same].
  destruct c as [generated data|session data|session data|session data
                 |session payment_id|]; cbn [route].
  - destruct (register_effect now generated data db) as [[_ ->]|(_&_&_&_&_&E)];
      [exact Same|].
    cbv zeta in E. rewrite E. cbn [snd users accounts transactions
      recurring_payments].
    eexists [_], [_], [], []. rewrite !app_nil_r. repeat split.
  - destruct (transfer_money_effect now session data db)
      as [[_ ->]|(uid & A & B & m & _ & _ & _ & _ & _ & _ & E)]; [exact Same|].
    cbv zeta in E. rewrite E. cbn [snd users accounts transactions
      recurring_payments].
    eexists [], [], [_], []. rewrite !app_nil_r. repeat split. apply moved_keys.
  - destruct (charge_customer_effect now session data db)
      as [[_ ->]|(uid & B & u & A & m & _ & _ & _ & _ & _ & _ & _ & _ & E)];
      [exact Same|].
    cbv zeta in E. rewrite E. cbn [snd users accounts transactions
      recurring_payments].
    eexists [], [], [_], []. rewrite !app_nil_r. repeat split. apply moved_keys.
  - destruct (create_recurring_payment_effect now session data db)
      as [[_ ->]|(uid & B & R & m & H)]; [exact Same|].
    cbv zeta in H. destruct H as (_ & _ & _ & _ & _ & _ & E).
    rewrite E. cbn [snd users accounts transactions recurring_payments
      with_recurring_payments].
    eexists [], [], [], [_]. rewrite !app_nil_r. repeat split.
  - destruct (cancel_recurring_payment_effect session payment_id db)
      as [[_ ->]|(uid & p & B & _ & _ & _ & E)]; [exact Same|].
    rewrite E. cbn [snd users accounts transactions recurring_payments
      with_recurring_payments].
    exists [], [], [], []. rewrite !app_nil_r. repeat split.
    apply set_inactive_terms.
  - rewrite process_recurring_payments_loop. cbn [snd]. unfold loop_after.
    destruct (loop_frame now (due_payments now db) (db, 0, 0)%nat)
      as (U & A & P & new & T & _ & _).
    cbn [st_db fst] in U, A, P, T.
    exists [], [], new, []. rewrite !app_nil_r. repeat split; assumption.
Qed.

(** X3: no request removes or rewrites a logged transaction: the log after a
    request is the log before it, followed by what the request has logged. *)
Theorem log_is_append_only now c db :
  exists new,
    transactions (snd (handle now c db)) = transactions db ++ new.
Proof.
  destruct (handle_frame now c db) as (us & acs & ts & ps & _ & _ & T & _).
  exists ts. exact T.
Qed.

(** X4: no request removes a user, an account or a recurring payment, and none
    moves a row or changes more of it than the balance of an account and the
    flag and date of a payment: the users after a request are the users before
    it followed by new ones, and so are the accounts without their balances
    and the payments without their flags and dates. *)
Theorem rows_are_never_deleted now c db :
  (exists new, users (snd (handle now c db)) = users db ++ new)
  /\ (exists new,
        map account_key (accounts (snd (handle now c db)))
        = map account_key (accounts db) ++ map account_key new)
  /\ (exists new,
        map payment_terms (recurring_payments (snd (handle now c db)))
        = map payment_terms (recurring_payments db) ++ map payment_terms new).
Proof.
  destruct (handle_frame now c db) as (us & acs & ts & ps & U & A & _ & P & _).
  split; [exists us; exact U|]. split.
  - exists acs. rewrite A, map_app. reflexivity.
  - exists ps. rewrite P, map_app. reflexivity.
Qed.

(** Users and accounts are inserted together, so the owners of the accounts
    are the users, in the order of the tables. *)
Lemma reachable_owners db :
  reachable db -> map Account.user_id (accounts db) = map User.id (users db).
Proof.
  induction 1 as [|db now c Hr IH]; [reflexivity|].
  destruct (handle_frame now c db) as (us & acs & ts & ps & U & A & _ & _ & E).
  rewrite U.
  rewrite (map_through account_key Account.user_id _ _ (fun _ => eq_refl) A).
  rewrite !map_app, IH, E. reflexivity.
Qed.

Lemma filter_absent_key {A} (f : A -> Z) l k :
  ~ In k (map f l) -> filter (fun a => f a =? k) l = [].
Proof.
  induction l as [|a l IH]; simpl; intros H; [reflexivity|].
  destruct (Z.eqb_spec (f a) k) as [E|E]; [exfalso; apply H; left; exact E|].
  apply IH. intros Hin. apply H. right. exact Hin.
Qed.

Lemma filter_unique_key {A} (f : A -> Z) l x :
  NoDup (map f l) -> In x l -> filter (fun a => f a =? f x) l = [x].
Proof.
  induction l as [|a l IH]; simpl; intros ND Hx; [contradiction|].
  inversion ND as [|? ? Hnotin ND']; subst.
  destruct Hx as [->|Hx].
  - rewrite Z.eqb_refl. f_equal. apply filter_absent_key. exact Hnotin.
  - destruct (Z.eqb_spec (f a) (f x)) as [E|E].
    + exfalso. apply Hnotin. rewrite E. apply in_map. exact Hx.
    + apply IH; assumption.
Qed.

Lemma find_hd_filter {A} (f : A -> bool) l : find f l = hd_error (filter f l).
Proof.
  induction l as [|a l IH]; simpl; [reflexivity|].
  destruct (f a); [reflexivity|exact IH].
Qed.

(** In a table where usernames are unique, the query on a username and a PIN
    finds the user of that name when the PIN is theirs, and nobody
    otherwise. *)
Lemma user_by_credentials_unique l u q :
  NoDup (map User.username l) -> In u l ->
  user_by_credentials l (User.username u) q
  = if String.eqb (User.pin u) q then Some u else None.
Proof.
  intros ND Hu. unfold user_by_credentials.
  destruct (String.eqb_spec (User.pin u) q) as [E|E].
  - destruct (find _ l) as [v|] eqn:F.
    + apply find_some in F. destruct F as [Hv F].
      apply andb_prop in F. destruct F as [F _]. apply String.eqb_eq in F.
      f_equal. apply (NoDup_map_same User.username l); assumption.
    + apply (find_none _ _ F) in Hu.
      rewrite String.eqb_refl in Hu. simpl in Hu.
      subst q. rewrite String.eqb_refl in Hu. discriminate.
  - apply find_none_of. intros v Hv.
    destruct (String.eqb_spec (User.username v) (User.username u)) as [F|F];
      [|reflexivity].
    assert (v = u) as -> by (apply (NoDup_map_same User.username l); assumption).
    simpl. apply String.eqb_neq. exact E.
Qed.

(** X5: in every database that requests build, each user owns exactly one
    account, which is the one that a charge takes as "first". *)
Theorem every_user_has_one_account db u :
  reachable db -> In u (users db) ->
  exists a,
    accounts_of (accounts db) (User.id u) = [a]
    /\ first_account_of (accounts db) (User.id u) = Some a.
Proof.
  intros Hr Hu.
  pose proof (reachable_owners db Hr) as Ho.
  pose proof (wf_user_ids db (reachable_well_formed db Hr)) as ND.
  rewrite <- Ho in ND.
  assert (Hin : In (User.id u) (map Account.user_id (accounts db)))
    by (rewrite Ho; apply in_map; exact Hu).
  apply in_map_iff in Hin. destruct Hin as (a & Ea & Ha).
  exists a. rewrite <- Ea.
  assert (F : accounts_of (accounts db) (Account.user_id a) = [a])
    by (apply (filter_unique_key Account.user_id); assumption).
  split; [exact F|].
  unfold first_account_of. rewrite find_hd_filter.
  unfold accounts_of in F. rewrite F. reflexivity.
Qed.

Lemma every_user_has_one_account_witness :
  exists a, accounts_of (accounts db_salary) 2 = [a].
Proof.
  destruct (every_user_has_one_account db_salary (User.mk 2 "bob" "4321" 5)
              reachable_db_salary (or_intror (or_introl eq_refl)))
    as (a & Ha & _).
  exists a. exact Ha.
Defined.

(** X6: a user of a database that requests build logs in with their username
    and their PIN, and with no other PIN: the right PIN answers with the user
    and their accounts and stores the user in the session; any other answers
    with an error and leaves the session as it was. *)
Theorem login_needs_the_pin db u session :
  reachable db -> In u (users db) ->
  login (User.username u) (User.pin u) session db
  = (LoginOk u (accounts_of (accounts db) (User.id u)), Some (User.id u))
  /\ forall q, q <> User.pin u ->
       snd (login (User.username u) q session db) = session
       /\ (fst (login (User.username u) q session db)
           = ViewError 400 "Username and PIN are required"
           \/ fst (login (User.username u) q session db)
              = ViewError 401 "Invalid username or PIN").
Proof.
  intros Hr Hu. pose proof (reachable_well_formed db Hr) as W.
  pose proof (wf_credentials db W) as Hc.
  rewrite forallb_forall in Hc. specialize (Hc u Hu).
  unfold valid_credentials, isdigit in Hc.
  apply andb_prop in Hc. destruct Hc as [Hc Hd].
  apply andb_prop in Hc. destruct Hc as [Hn _].
  apply andb_prop in Hd. destruct Hd as [Hp _].
  split.
  - unfold login. rewrite Hn, Hp. simpl.
    rewrite (user_by_credentials_unique _ _ _ (wf_usernames db W) Hu).
    rewrite String.eqb_refl. reflexivity.
  - intros q Hq. unfold login. rewrite Hn. simpl.
    destruct (truthy_str q); simpl; [|split; [reflexivity|left; reflexivity]].
    rewrite (user_by_credentials_unique _ _ _ (wf_usernames db W) Hu).
    assert (E : String.eqb (User.pin u) q = false)
      by (apply String.eqb_neq; congruence).
    rewrite E. split; [reflexivity|right; reflexivity].
Qed.

Lemma login_needs_the_pin_witness :
  login "bob" "4321" None db_salary
  = (LoginOk (User.mk 2 "bob" "4321" 5) [account_bob], Some 2)
  /\ fst (login "bob" "1234" None db_salary)
     = ViewError 401 "Invalid username or PIN".
Proof.
  destruct (login_needs_the_pin db_salary (User.mk 2 "bob" "4321" 5) None
              reachable_db_salary (or_intror (or_introl eq_refl))) as [H1 H2].
  split; [exact H1|].
  destruct (H2 "1234" ltac:(discriminate)) as [_ [H|H]]; [discriminate H|exact H].
Defined.

(** X7: a registration that succeeds on a database that requests have built
    can be followed by a login with the same username and PIN, which answers
    with the new user and the one account that came with it. *)
Theorem register_then_login now generated data db u a session :
  reachable db ->
  fst (register now generated data db) = RegisterOk u a ->
  login (reg_username data) (reg_pin data) session
        (snd (register now generated data db))
  = (LoginOk u [a], Some (User.id u)).
Proof.
  intros Hr Hreg.
  assert (Hr' : reachable (snd (register now generated data db))).
  { pose proof (reachable_step db now (Register generated data) Hr) as S.
    unfold handle in S. cbn [route] in S.
    destruct (commit_cases db (register now generated data db))
      as [[_ E]|[C _]]; [rewrite E in S; exact S|].
    exfalso. pose proof (reachable_constraints db Hr) as K.
    destruct (register_tables now generated data db)
      as [_ [Ha|(a' & Ha & _ & Hb)]].
    - destruct (register_effect now generated data db)
        as [[_ E]|(_ & _ & _ & _ & _ & E)]; [congruence|].
      cbv zeta in E. rewrite E in Ha. cbn [snd accounts] in Ha.
      apply (f_equal (@List.length _)) in Ha. rewrite length_app in Ha.
      simpl in Ha. lia.
    - destruct (register_effect now generated data db)
        as [[_ E]|(_ & _ & _ & _ & _ & E)]; [congruence|].
      cbv zeta in E. rewrite E in C.
      unfold constraints_hold in C, K.
      cbn [snd accounts transactions recurring_payments] in C.
      rewrite forallb_app in C. cbn [forallb Account.balance] in C.
      apply andb_prop in K. destruct K as [K K3].
      apply andb_prop in K. destruct K as [K1 K2].
      rewrite K1, K2, K3 in C. vm_compute in C. discriminate C. }
  destruct (register_effect now generated data db)
    as [[H _]|(_ & _ & _ & _ & _ & E)];
    [rewrite Hreg in H; discriminate H|].
  cbv zeta in E. rewrite E in Hreg. cbn [fst] in Hreg.
  injection Hreg as <- <-.
  set (user := User.mk (next_id (map User.id (users db))) (reg_username data)
                       (reg_pin data) now) in *.
  set (account := Account.mk _ generated _ _ _ _) in *.
  assert (Hu : In user (users (snd (register now generated data db))))
    by (rewrite E; cbn [snd users]; apply in_or_app; right; left; reflexivity).
  assert (Ha : In account (accounts (snd (register now generated data db))))
    by (rewrite E; cbn [snd accounts]; apply in_or_app; right; left; reflexivity).
  pose proof (reachable_well_formed _ Hr') as W.
  pose proof (wf_credentials _ W) as Hc.
  rewrite forallb_forall in Hc. specialize (Hc user Hu).
  unfold valid_credentials, isdigit in Hc. cbn [User.username User.pin user] in Hc.
  apply andb_prop in Hc. destruct Hc as [Hc Hd].
  apply andb_prop in Hc. destruct Hc as [Hn _].
  apply andb_prop in Hd. destruct Hd as [Hp _].
  unfold login. rewrite Hn, Hp. simpl.
  change (reg_username data) with (User.username user).
  rewrite (user_by_credentials_unique _ _ _ (wf_usernames _ W) Hu).
  cbn [User.pin user]. rewrite String.eqb_refl.
  f_equal. f_equal.
  pose proof (reachable_owners _ Hr') as Ho.
  pose proof (wf_user_ids _ W) as ND. rewrite <- Ho in ND.
  change (User.id user) with (Account.user_id account).
  apply (filter_unique_key Account.user_id); assumption.
Qed.

Lemma register_then_login_witness :
  login "carol" "0000" None db_three
  = (LoginOk (User.mk 3 "carol" "0000" 7)
             [Account.mk 3 "1000000003" "personal" 250000 3 7], Some 3).
Proof.
  exact (register_then_login 7 "1000000003" carol db_two
           (User.mk 3 "carol" "0000" 7)
           (Account.mk 3 "1000000003" "personal" 250000 3 7) None
           (reachable_step _ 5 (Register "1000000002" bob)
              (reachable_step _ 0 (Register "1000000001" alice) reachable_empty))
           eq_refl).
Defined.

(** When the accounts of every payment of the list exist, the loop that pays
    none of them returns the database it was given. *)
Lemma loop_pays_or_keeps now l db n f :
  (forall p, In p l ->
     In (RecurringPayment.from_account_id p) (map Account.id (accounts db))
     /\ In (RecurringPayment.to_account_id p) (map Account.id (accounts db))) ->
  st_processed (fold_left (process_payment now) l (db, n, f)) = n ->
  st_db (fold_left (process_payment now) l (db, n, f)) = db.
Proof.
  revert db n f. induction l as [|p l IH]; intros db n f H E; cbn [fold_left] in *.
  - reflexivity.
  - destruct (H p (or_introl eq_refl)) as [Hfrom Hto].
    destruct (process_payment_linked now db n f p Hfrom Hto)
      as [[_ Hp]|[_ Hp]]; rewrite Hp in *.
    + pose proof (loop_counters now l (paid now db p, S n, f)) as C.
      cbv zeta in C. cbn [st_processed fst snd] in C. lia.
    + apply IH; [|exact E]. intros q Hq. apply H. right. exact Hq.
Qed.

(** X8: on a database that requests have built, the processing of the
    recurring payments answers with two counters, adds to the log one
    transaction of type "salary" for each payment it counts as processed and
    nothing else, and, when it counts none, returns the database unchanged: a
    payment that fails leaves no partial write behind. *)
Theorem processing_logs_what_it_pays now db :
  reachable db ->
  exists processed failed new,
    fst (process_recurring_payments now db) = RecurringProcessed processed failed
    /\ (processed + failed = List.length (due_payments now db))%nat
    /\ transactions (snd (process_recurring_payments now db))
       = transactions db ++ new
    /\ List.length new = processed
    /\ Forall (fun t => Transaction.transaction_type t = "salary") new
    /\ (processed = 0%nat -> snd (process_recurring_payments now db) = db).
Proof.
  intros Hr. pose proof (reachable_well_formed db Hr) as W.
  rewrite process_recurring_payments_loop. cbn [fst snd]. unfold loop_after.
  destruct (loop_frame now (due_payments now db) (db, 0, 0)%nat)
    as (_ & _ & _ & new & T & L & F).
  pose proof (loop_counters now (due_payments now db) (db, 0, 0)%nat) as C.
  cbv zeta in C. destruct C as (C & _ & _).
  cbn [st_db st_processed st_failed fst snd] in T, L, C.
  eexists. eexists. exists new.
  split; [reflexivity|]. split; [exact C|]. split; [exact T|].
  split; [rewrite L; apply Nat.sub_0_r|]. split; [exact F|].
  intros E. apply loop_pays_or_keeps; [|exact E].
  intros p Hp. apply filter_In in Hp. apply payment_accounts_present; tauto.
Qed.

Lemma processing_logs_what_it_pays_witness :
  exists new,
    transactions (snd (process_recurring_payments (100 + days 45) db_salary))
    = transactions db_salary ++ new
    /\ Forall (fun t => Transaction.transaction_type t = "salary") new.
Proof.
  destruct (processing_logs_what_it_pays (100 + days 45) db_salary
              reachable_db_salary) as (n & f & new & _ & _ & T & _ & F & _).
  exists new. split; assumption.
Defined.

(** * generate_account_number *)

Lemma digit_char_is_digit d : 0 <= d <= 9 -> is_digit (digit_char d) = true.
Proof.
  intros H. unfold is_digit, digit_char.
  rewrite Ascii.nat_ascii_embedding by lia.
  apply andb_true_iff. split; apply Nat.leb_le; lia.
Qed.

Lemma isdigit_chars_app s1 s2 :
  isdigit_chars (s1 ++ s2) = isdigit_chars s1 && isdigit_chars s2.
Proof.
  induction s1 as [|c s1 IH]; simpl; [reflexivity|].
  rewrite IH, andb_assoc. reflexivity.
Qed.

Lemma string_length_app s1 s2 :
  String.length (s1 ++ s2) = (String.length s1 + String.length s2)%nat.
Proof. induction s1 as [|c s1 IH]; simpl; [reflexivity|]. rewrite IH. reflexivity. Qed.

(** A number of [d + 1] decimal digits is written with [d + 1] digits. *)
Lemma decimal_digits d : forall fuel n,
  (d < fuel)%nat -> 10 ^ Z.of_nat d <= n < 10 ^ Z.of_nat (S d) ->
  String.length (decimal fuel n) = S d /\ isdigit_chars (decimal fuel n) = true.
Proof.
  induction d as [|d IH]; intros fuel n Hfuel Hn;
    (destruct fuel as [|fuel]; [lia|]); cbn [decimal].
  - change (10 ^ Z.of_nat 0) with 1 in Hn. change (10 ^ Z.of_nat 1) with 10 in Hn.
    destruct (Z.ltb_spec n 10); [|lia].
    cbn [String.length isdigit_chars]. rewrite digit_char_is_digit by lia.
    split; reflexivity.
  - rewrite !Nat2Z.inj_succ, !Z.pow_succ_r in Hn by lia.
    rewrite Nat2Z.inj_succ, Z.pow_succ_r in IH by lia.
    assert (0 < 10 ^ Z.of_nat d) by (apply Z.pow_pos_nonneg; lia).
    destruct (Z.ltb_spec n 10); [lia|].
    destruct (IH fuel (n / 10)) as [L D]; [lia| |].
    { split.
      - apply Z.div_le_lower_bound; lia.
      - apply Z.div_lt_upper_bound; lia. }
    rewrite string_length_app, isdigit_chars_app, L, D.
    cbn [String.length isdigit_chars].
    rewrite digit_char_is_digit
      by (pose proof (Z.mod_pos_bound n 10 ltac:(lia)); lia).
    split; [lia|reflexivity].
Qed.

(** X9: an account number drawn between 1000000000 and 9999999999 is a string
    of exactly ten decimal digits, so it is not empty and fits the column of 20
    characters. *)
Theorem generated_account_number_has_ten_digits drawn :
  1000000000 <= drawn <= 9999999999 ->
  String.length (generate_account_number drawn) = 10%nat
  /\ isdigit (generate_account_number drawn) = true
  /\ truthy_str (generate_account_number drawn) = true.
Proof.
  intros H. unfold generate_account_number, str.
  destruct (Z.ltb_spec drawn 0); [lia|].
  assert (Hlog : 29 <= Z.log2 drawn).
  { change 29 with (Z.log2 (2 ^ 29)). apply Z.log2_le_mono. simpl. lia. }
  destruct (decimal_digits 9 (S (Z.to_nat (Z.log2 drawn))) drawn) as [L D].
  { lia. }
  { simpl. lia. }
  assert (T : truthy_str (decimal (S (Z.to_nat (Z.log2 drawn))) drawn) = true).
  { destruct (decimal _ drawn); [discriminate L|reflexivity]. }
  unfold isdigit. rewrite L, D, T. repeat split.
Qed.

Lemma generated_account_number_has_ten_digits_witness :
  generate_account_number 1000000001 = "1000000001"
  /\ String.length (generate_account_number 9999999999) = 10%nat.
Proof.
  split; [reflexivity|].
  exact (proj1 (generated_account_number_has_ten_digits 9999999999
                  ltac:(split; discriminate))).
Defined.
